(** * HelloTriangleApp: bootstrap of a Vulkan presentation context

    A shallow embedding of [src/hello_triangle_app.h]: instance extensions,
    physical-device selection, swapchain negotiation and teardown, with the
    properties the specification states about them.

    Conventions.
    - [uint32_t] and [int] values are integers of [Z]; conversions between
      them and the wrap-around of unsigned arithmetic are written out.
    - Vulkan enumerators are the integers [vulkan_core.h] gives them.
    - A handle together with everything the runtime answers about it is one
      record ([VkPhysicalDevice]); the answers of the runtime and of SDL to
      the other calls are the fields of [Env].
    - Member functions that touch the members of [HelloTriangleApp] or call
      the runtime live in the monad [M]: the members and the log of
      object-creating and object-destroying calls are threaded, a failed
      [ASSERT] or [VKASSERT] ends the run with [None]. *)

From Stdlib Require Import ZArith List Bool String Ascii Lia PeanoNat Sorted Permutation.
Import ListNotations.

Local Open Scope Z_scope.

(** ** Machine integers *)

Definition UINT32_MAX : Z := 4294967295.
Definition INT_MAX : Z := 2147483647.

Definition is_uint32_t (z : Z) : Prop := 0 <= z <= UINT32_MAX.

(** [static_cast<uint32_t>(z)] and the sum of two [uint32_t]. *)
Definition static_cast_uint32_t (z : Z) : Z := z mod (UINT32_MAX + 1).
Definition uint32_add (a b : Z) : Z := static_cast_uint32_t (a + b).

(** [std::min(a, b)], [std::max(a, b)] and [std::clamp(v, lo, hi)] as
    <algorithm> defines them.  [std::clamp] requires that [hi] is not less
    than [lo]; libstdc++ computes [std::min(std::max(v, lo), hi)], which is
    what is embedded here, and the properties of the clamped value below
    carry the requirement as a premise. *)
Definition std_min (a b : Z) : Z := if b <? a then b else a.
Definition std_max (a b : Z) : Z := if a <? b then b else a.
Definition std_clamp (v lo hi : Z) : Z := std_min (std_max v lo) hi.

(** ** Constants of the Vulkan headers and of the file *)

Definition VkFormat := Z.
Definition VkColorSpaceKHR := Z.
Definition VkPresentModeKHR := Z.
Definition VkSharingMode := Z.

Definition VK_FORMAT_B8G8R8A8_SRGB : VkFormat := 50.
Definition VK_COLOR_SPACE_SRGB_NONLINEAR_KHR : VkColorSpaceKHR := 0.
Definition VK_PRESENT_MODE_MAILBOX_KHR : VkPresentModeKHR := 1.
Definition VK_PRESENT_MODE_FIFO_KHR : VkPresentModeKHR := 2.
Definition VK_SHARING_MODE_EXCLUSIVE : VkSharingMode := 0.
Definition VK_SHARING_MODE_CONCURRENT : VkSharingMode := 1.
Definition VK_QUEUE_GRAPHICS_BIT : Z := 1.
Definition VK_IMAGE_USAGE_COLOR_ATTACHMENT_BIT : Z := 16.
Definition VK_COMPOSITE_ALPHA_OPAQUE_BIT_KHR : Z := 1.
Definition VK_INSTANCE_CREATE_ENUMERATE_PORTABILITY_BIT_KHR : Z := 1.
Definition VK_DEBUG_UTILS_MESSAGE_SEVERITY_WARNING_BIT_EXT : Z := 256.
Definition VK_DEBUG_UTILS_MESSAGE_SEVERITY_ERROR_BIT_EXT : Z := 4096.
Definition VK_DEBUG_UTILS_MESSAGE_TYPE_GENERAL_BIT_EXT : Z := 1.
Definition VK_DEBUG_UTILS_MESSAGE_TYPE_VALIDATION_BIT_EXT : Z := 2.
Definition VK_DEBUG_UTILS_MESSAGE_TYPE_PERFORMANCE_BIT_EXT : Z := 4.

Definition VK_KHR_SWAPCHAIN_EXTENSION_NAME : string := "VK_KHR_swapchain".
Definition VK_EXT_DEBUG_UTILS_EXTENSION_NAME : string := "VK_EXT_debug_utils".
Definition VK_KHR_PORTABILITY_ENUMERATION_EXTENSION_NAME : string :=
  "VK_KHR_portability_enumeration".

Definition validation_layers : list string := ["VK_LAYER_KHRONOS_validation"%string].
Definition device_extensions : list string := [VK_KHR_SWAPCHAIN_EXTENSION_NAME].

(** ** Structures of the runtime *)

Record VkExtent2D := { width : Z; height : Z }.

Record VkSurfaceFormatKHR := { format : VkFormat; colorSpace : VkColorSpaceKHR }.

(** The fields of [VkSurfaceCapabilitiesKHR] the program reads. *)
Record VkSurfaceCapabilitiesKHR := {
  minImageCount : Z;
  maxImageCount : Z;
  currentExtent : VkExtent2D;
  minImageExtent : VkExtent2D;
  maxImageExtent : VkExtent2D;
  currentTransform : Z
}.

Record VkQueueFamilyProperties := { queueFlags : Z }.

Record VkExtensionProperties := { extensionName : string; specVersion : Z }.

(** A physical device: what the runtime answers when it is asked about the
    handle, for the surface of the application.  [surface_support i] is the
    flag [vkGetPhysicalDeviceSurfaceSupportKHR] writes for family [i]. *)
Record VkPhysicalDevice := {
  queue_family_properties : list VkQueueFamilyProperties;
  surface_support : Z -> bool;
  device_extension_properties : list VkExtensionProperties;
  surface_capabilities : VkSurfaceCapabilitiesKHR;
  surface_formats : list VkSurfaceFormatKHR;
  surface_present_modes : list VkPresentModeKHR
}.

Definition VkImage := Z.
Definition VkImageView := Z.

(** ** Members of the class *)

Record QueueFamilyIndices := { gfx_family : Z; present_family : Z }.

Definition isComplete (q : QueueFamilyIndices) : bool :=
  negb (gfx_family q =? -1) && negb (present_family q =? -1).

Record SwapchainSupportDetails := {
  caps : VkSurfaceCapabilitiesKHR;
  formats : list VkSurfaceFormatKHR;
  present_modes : list VkPresentModeKHR
}.

(** ** Device selector: pure parts *)

Definition has_graphics (q_family : VkQueueFamilyProperties) : bool :=
  negb (Z.land (queueFlags q_family) VK_QUEUE_GRAPHICS_BIT =? 0).

(** The body of the range-for of [findQueueFamilies]; [i] is the counter the
    loop keeps next to the iterator.  It stays far below [INT_MAX]: it counts
    the queue families of one device. *)
Fixpoint findQueueFamilies_loop (device : VkPhysicalDevice)
    (q_families : list VkQueueFamilyProperties) (i : Z)
    (indices : QueueFamilyIndices) : QueueFamilyIndices :=
  match q_families with
  | [] => indices
  | q_family :: rest =>
      let indices :=
        if has_graphics q_family
        then {| gfx_family := i; present_family := present_family indices |}
        else indices in
      let present_support := surface_support device i in
      let indices :=
        if present_support
        then {| gfx_family := gfx_family indices; present_family := i |}
        else indices in
      if isComplete indices then indices
      else findQueueFamilies_loop device rest (i + 1) indices
  end.

Definition findQueueFamilies (device : VkPhysicalDevice) : QueueFamilyIndices :=
  findQueueFamilies_loop device (queue_family_properties device) 0
    {| gfx_family := -1; present_family := -1 |}.

(** [std::sort] on strings with [operator<]: the ascending arrangement of the
    elements.  Equal strings cannot be told apart, so that arrangement is
    unique and an insertion sort computes it. *)
Fixpoint insert_sorted (x : string) (l : list string) : list string :=
  match l with
  | [] => [x]
  | y :: l' => if String.ltb y x then y :: insert_sorted x l' else x :: l
  end.

Definition std_sort (l : list string) : list string :=
  fold_right insert_sorted [] l.

(** [std::includes(first1, last1, first2, last2)] as <algorithm> defines it:
    while the second range is not exhausted, answer [false] when the first
    range is exhausted or the head of the second is less than the head of the
    first; step the second range when the head of the first is not less than
    its head; step the first range.  [true] when the second is exhausted. *)
Fixpoint std_includes (l1 l2 : list string) {struct l1} : bool :=
  match l2 with
  | [] => true
  | y :: l2' =>
      match l1 with
      | [] => false
      | x :: l1' =>
          if String.ltb y x then false
          else if String.ltb x y then std_includes l1' l2
          else std_includes l1' l2'
      end
  end.

Definition checkDeviceExtensionSupport (device : VkPhysicalDevice) : bool :=
  let extensions := device_extension_properties device in
  let available_exts := map extensionName extensions in
  let required_exts := device_extensions in
  let required_exts := std_sort required_exts in
  let available_exts := std_sort available_exts in
  std_includes available_exts required_exts.

Definition querySwapChainSupport (device : VkPhysicalDevice) : SwapchainSupportDetails :=
  {| caps := surface_capabilities device;
     formats := surface_formats device;
     present_modes := surface_present_modes device |}.

(** ** Swapchain negotiator: pure parts *)

Definition is_preferred_format (f : VkSurfaceFormatKHR) : bool :=
  (format f =? VK_FORMAT_B8G8R8A8_SRGB) &&
  (colorSpace f =? VK_COLOR_SPACE_SRGB_NONLINEAR_KHR).

Fixpoint chooseSwapSurfaceFormat_loop (all rest : list VkSurfaceFormatKHR)
    : option VkSurfaceFormatKHR :=
  match rest with
  | [] => nth_error all 0
  | f :: rest' =>
      if is_preferred_format f then Some f
      else chooseSwapSurfaceFormat_loop all rest'
  end.

(** [DASSERT(formats.size())] guards [formats[0]]: an empty vector has no
    defined result, which is [None] here. *)
Definition chooseSwapSurfaceFormat (formats : list VkSurfaceFormatKHR)
    : option VkSurfaceFormatKHR :=
  if (List.length formats =? 0)%nat then None
  else chooseSwapSurfaceFormat_loop formats formats.

(** [std::find(first, last, value) != last]. *)
Definition std_find_found (value : Z) (l : list Z) : bool :=
  existsb (fun x => x =? value) l.

Definition chooseSwapPresentMode (present_modes : list VkPresentModeKHR)
    : VkPresentModeKHR :=
  if std_find_found VK_PRESENT_MODE_MAILBOX_KHR present_modes
  then VK_PRESENT_MODE_MAILBOX_KHR
  else VK_PRESENT_MODE_FIFO_KHR.

(** [drawable] is what [SDL_GL_GetDrawableSize] writes into the two [int]s. *)
Definition chooseSwapExtent (drawable : Z * Z) (caps : VkSurfaceCapabilitiesKHR)
    : VkExtent2D :=
  if negb (width (currentExtent caps) =? UINT32_MAX) then currentExtent caps
  else
    let '(w, h) := drawable in
    let extent := {| width := static_cast_uint32_t w;
                     height := static_cast_uint32_t h |} in
    let extent := {| width := std_clamp (width extent)
                                (width (minImageExtent caps))
                                (width (maxImageExtent caps));
                     height := height extent |} in
    let extent := {| width := width extent;
                     height := std_clamp (height extent)
                                 (height (minImageExtent caps))
                                 (height (maxImageExtent caps)) |} in
    extent.

Record VkSwapchainCreateInfoKHR := {
  ci_minImageCount : Z;
  ci_imageFormat : VkFormat;
  ci_imageColorSpace : VkColorSpaceKHR;
  ci_imageExtent : VkExtent2D;
  ci_imageArrayLayers : Z;
  ci_imageUsage : Z;
  ci_imageSharingMode : VkSharingMode;
  ci_queueFamilyIndexCount : Z;
  ci_pQueueFamilyIndices : option (list Z);   (* [None] is [nullptr] *)
  ci_preTransform : Z;
  ci_compositeAlpha : Z;
  ci_presentMode : VkPresentModeKHR;
  ci_clipped : bool;
  ci_oldSwapchain : option Z                  (* [None] is [VK_NULL_HANDLE] *)
}.

(** The [image_count] of [createSwapChain] before the call. *)
Definition requested_image_count (caps : VkSurfaceCapabilitiesKHR) : Z :=
  let image_count := uint32_add (minImageCount caps) 1 in
  if 0 <? maxImageCount caps
  then std_min image_count (maxImageCount caps)
  else image_count.

(** The create info [createSwapChain] hands to [vkCreateSwapchainKHR]. *)
Definition swapchain_ci (drawable : Z * Z) (q_indices_ : QueueFamilyIndices)
    (swapchain_support_ : SwapchainSupportDetails)
    : option VkSwapchainCreateInfoKHR :=
  match chooseSwapSurfaceFormat (formats swapchain_support_) with
  | None => None
  | Some format_ =>
      let present_mode := chooseSwapPresentMode (present_modes swapchain_support_) in
      let extent := chooseSwapExtent drawable (caps swapchain_support_) in
      let image_count := requested_image_count (caps swapchain_support_) in
      let queue_family_indices :=
        [static_cast_uint32_t (gfx_family q_indices_);
         static_cast_uint32_t (present_family q_indices_)] in
      let concurrent :=
        negb (gfx_family q_indices_ =? present_family q_indices_) in
      Some {|
        ci_minImageCount := image_count;
        ci_imageFormat := format format_;
        ci_imageColorSpace := colorSpace format_;
        ci_imageExtent := extent;
        ci_imageArrayLayers := 1;
        ci_imageUsage := VK_IMAGE_USAGE_COLOR_ATTACHMENT_BIT;
        ci_imageSharingMode :=
          if concurrent then VK_SHARING_MODE_CONCURRENT
          else VK_SHARING_MODE_EXCLUSIVE;
        ci_queueFamilyIndexCount := if concurrent then 2 else 0;
        ci_pQueueFamilyIndices :=
          if concurrent then Some queue_family_indices else None;
        ci_preTransform := currentTransform (caps swapchain_support_);
        ci_compositeAlpha := VK_COMPOSITE_ALPHA_OPAQUE_BIT_KHR;
        ci_presentMode := present_mode;
        ci_clipped := true;
        ci_oldSwapchain := None
      |}
  end.

(** ** Calls that create or destroy an object *)

Record VkDebugUtilsMessengerCreateInfoEXT := {
  messageSeverity : Z;
  messageType : Z
}.

Record VkInstanceCreateInfo := {
  ppEnabledExtensionNames : list string;
  ppEnabledLayerNames : list string;
  pNext : option VkDebugUtilsMessengerCreateInfoEXT;
  flags : Z
}.

Record VkDeviceQueueCreateInfo := { queueFamilyIndex : Z; queueCount : Z }.

Record VkDeviceCreateInfo := {
  pQueueCreateInfos : list VkDeviceQueueCreateInfo;
  device_ppEnabledExtensionNames : list string;
  device_ppEnabledLayerNames : list string
}.

Record VkImageViewCreateInfo := { image : VkImage; view_format : VkFormat }.

(** The log keeps the calls that create or destroy an object the class owns,
    in program order; queries and printing are left out.  [vkCreateImageView]
    is logged with the handle it wrote. *)
Inductive Call :=
| SDL_Init
| SDL_CreateWindow
| vkCreateInstance (ci : VkInstanceCreateInfo)
| vkCreateDebugUtilsMessengerEXT (ci : VkDebugUtilsMessengerCreateInfoEXT)
| SDL_Vulkan_CreateSurface
| vkCreateDevice (ci : VkDeviceCreateInfo)
| vkCreateSwapchainKHR (ci : VkSwapchainCreateInfoKHR)
| vkCreateImageView (ci : VkImageViewCreateInfo) (view : VkImageView)
| vkDestroyImageView (view : VkImageView)
| vkDestroySwapchainKHR
| vkDestroyDevice
| vkDestroyDebugUtilsMessengerEXT
| vkDestroySurfaceKHR
| vkDestroyInstance
| SDL_DestroyWindow
| SDL_Quit.

Inductive Object :=
| WindowingSubsystem
| Window
| Instance
| DebugMessenger
| Surface
| LogicalDevice
| Swapchain
| ImageView (view : VkImageView).

Definition created (c : Call) : option Object :=
  match c with
  | SDL_Init => Some WindowingSubsystem
  | SDL_CreateWindow => Some Window
  | vkCreateInstance _ => Some Instance
  | vkCreateDebugUtilsMessengerEXT _ => Some DebugMessenger
  | SDL_Vulkan_CreateSurface => Some Surface
  | vkCreateDevice _ => Some LogicalDevice
  | vkCreateSwapchainKHR _ => Some Swapchain
  | vkCreateImageView _ view => Some (ImageView view)
  | _ => None
  end.

Definition destroyed (c : Call) : option Object :=
  match c with
  | vkDestroyImageView view => Some (ImageView view)
  | vkDestroySwapchainKHR => Some Swapchain
  | vkDestroyDevice => Some LogicalDevice
  | vkDestroyDebugUtilsMessengerEXT => Some DebugMessenger
  | vkDestroySurfaceKHR => Some Surface
  | vkDestroyInstance => Some Instance
  | SDL_DestroyWindow => Some Window
  | SDL_Quit => Some WindowingSubsystem
  | _ => None
  end.

Fixpoint filter_map {A B : Type} (f : A -> option B) (l : list A) : list B :=
  match l with
  | [] => []
  | a :: l' =>
      match f a with
      | Some b => b :: filter_map f l'
      | None => filter_map f l'
      end
  end.

(** The objects a log creates, and the objects it destroys, in log order. *)
Definition created_objects (log : list Call) : list Object := filter_map created log.
Definition destroyed_objects (log : list Call) : list Object := filter_map destroyed log.

(** ** The world outside the class *)

(** Preprocessor symbols that select code. *)
Record Build := { DEBUG : bool; APPLE : bool }.

(** What SDL and the runtime answer.  A [bool] result is "the call succeeded"
    (SDL_TRUE, VK_SUCCESS, a handle that is not null); [None] is a failed
    call. *)
Record Env := {
  SDL_Init_result : Z;
  SDL_CreateWindow_result : bool;
  SDL_Vulkan_GetInstanceExtensions_result : option (list string);
  vkEnumerateInstanceExtensionProperties_result : bool;
  vkEnumerateInstanceLayerProperties_result : option (list string);
  vkCreateInstance_result : bool;
  vkCreateDebugUtilsMessengerEXT_loaded : bool;
  vkCreateDebugUtilsMessengerEXT_result : bool;
  SDL_Vulkan_CreateSurface_result : bool;
  vkEnumeratePhysicalDevices_result : list VkPhysicalDevice;
  vkCreateDevice_result : bool;
  vkGetDeviceQueue_result : Z -> bool;
  SDL_GL_GetDrawableSize_result : Z * Z;
  vkCreateSwapchainKHR_result : bool;
  vkGetSwapchainImagesKHR_result : list VkImage;
  vkCreateImageView_result : nat -> option VkImageView;
  vkDestroyDebugUtilsMessengerEXT_loaded : bool;
  (* per [SDL_PollEvent]: did it deliver the close event of the window *)
  SDL_PollEvent_results : list bool
}.

(** ** Members and the monad of member functions *)

(** The members that hold data.  The handles [window_], [instance_],
    [dbg_messenger_], [surface_], [device_], [gfx_q_], [present_q_] and
    [swapchain_] are no fields: there is one object of each kind, written by
    the call that creates it, and the log of calls stands for them. *)
Record App := {
  physical_device_ : option VkPhysicalDevice;   (* [None] is [VK_NULL_HANDLE] *)
  q_indices_ : QueueFamilyIndices;
  swapchain_support_ : SwapchainSupportDetails;
  swapchain_images_ : list VkImage;
  swapchain_format_ : VkFormat;
  swapchain_extent_ : VkExtent2D;
  swapchain_views_ : list VkImageView
}.

Definition set_physical_device_ (v : option VkPhysicalDevice) (a : App) : App :=
  {| physical_device_ := v; q_indices_ := q_indices_ a;
     swapchain_support_ := swapchain_support_ a;
     swapchain_images_ := swapchain_images_ a;
     swapchain_format_ := swapchain_format_ a;
     swapchain_extent_ := swapchain_extent_ a;
     swapchain_views_ := swapchain_views_ a |}.

Definition set_q_indices_ (v : QueueFamilyIndices) (a : App) : App :=
  {| physical_device_ := physical_device_ a; q_indices_ := v;
     swapchain_support_ := swapchain_support_ a;
     swapchain_images_ := swapchain_images_ a;
     swapchain_format_ := swapchain_format_ a;
     swapchain_extent_ := swapchain_extent_ a;
     swapchain_views_ := swapchain_views_ a |}.

Definition set_swapchain_support_ (v : SwapchainSupportDetails) (a : App) : App :=
  {| physical_device_ := physical_device_ a; q_indices_ := q_indices_ a;
     swapchain_support_ := v;
     swapchain_images_ := swapchain_images_ a;
     swapchain_format_ := swapchain_format_ a;
     swapchain_extent_ := swapchain_extent_ a;
     swapchain_views_ := swapchain_views_ a |}.

Definition set_swapchain_images_ (v : list VkImage) (a : App) : App :=
  {| physical_device_ := physical_device_ a; q_indices_ := q_indices_ a;
     swapchain_support_ := swapchain_support_ a;
     swapchain_images_ := v;
     swapchain_format_ := swapchain_format_ a;
     swapchain_extent_ := swapchain_extent_ a;
     swapchain_views_ := swapchain_views_ a |}.

Definition set_swapchain_format_ (v : VkFormat) (a : App) : App :=
  {| physical_device_ := physical_device_ a; q_indices_ := q_indices_ a;
     swapchain_support_ := swapchain_support_ a;
     swapchain_images_ := swapchain_images_ a;
     swapchain_format_ := v;
     swapchain_extent_ := swapchain_extent_ a;
     swapchain_views_ := swapchain_views_ a |}.

Definition set_swapchain_extent_ (v : VkExtent2D) (a : App) : App :=
  {| physical_device_ := physical_device_ a; q_indices_ := q_indices_ a;
     swapchain_support_ := swapchain_support_ a;
     swapchain_images_ := swapchain_images_ a;
     swapchain_format_ := swapchain_format_ a;
     swapchain_extent_ := v;
     swapchain_views_ := swapchain_views_ a |}.

Definition set_swapchain_views_ (v : list VkImageView) (a : App) : App :=
  {| physical_device_ := physical_device_ a; q_indices_ := q_indices_ a;
     swapchain_support_ := swapchain_support_ a;
     swapchain_images_ := swapchain_images_ a;
     swapchain_format_ := swapchain_format_ a;
     swapchain_extent_ := swapchain_extent_ a;
     swapchain_views_ := v |}.

(** The state a member function runs in: the members and the log so far. *)
Definition State : Type := App * list Call.

Definition M (A : Type) : Type := State -> option (A * State).

Definition ret {A : Type} (a : A) : M A := fun s => Some (a, s).

Definition bind {A B : Type} (m : M A) (k : A -> M B) : M B :=
  fun s => match m s with
           | Some (a, s') => k a s'
           | None => None
           end.

Declare Scope app_scope.
Delimit Scope app_scope with app.
Notation "x <- m ;; k" := (bind m (fun x => k))
  (at level 61, m at next level, right associativity) : app_scope.
Notation "m ;; k" := (bind m (fun _ => k))
  (at level 61, right associativity) : app_scope.
Local Open Scope app_scope.

(** [ASSERT(cond)] and [VKASSERT(result)]: go on, or end the process. *)
Definition ASSERT (cond : bool) : M unit :=
  fun s => if cond then Some (tt, s) else None.
Definition VKASSERT (success : bool) : M unit := ASSERT success.

Definition lift {A : Type} (o : option A) : M A :=
  fun s => match o with Some a => Some (a, s) | None => None end.

Definition call (c : Call) : M unit :=
  fun s => Some (tt, (fst s, snd s ++ [c])).

Definition members : M App := fun s => Some (fst s, s).

Definition assign (f : App -> App) : M unit :=
  fun s => Some (tt, (f (fst s), snd s)).

(** A range-for whose body has no [break]. *)
Fixpoint for_each {A : Type} (l : list A) (body : A -> M unit) : M unit :=
  match l with
  | [] => ret tt
  | a :: l' => body a ;; for_each l' body
  end.

(** [v[i] = x] on a vector that has an element [i]. *)
Fixpoint assign_at {A : Type} (i : nat) (x : A) (v : list A) : list A :=
  match v, i with
  | [], _ => []
  | _ :: v', O => x :: v'
  | y :: v', S i' => y :: assign_at i' x v'
  end.

(** [v.empty()]. *)
Definition is_empty_vector {A : Type} (v : list A) : bool :=
  match v with [] => true | _ => false end.

(** [v.resize(n)]: cut, or fill up with value-initialised elements. *)
Definition resize {A : Type} (n : nat) (d : A) (v : list A) : list A :=
  firstn n v ++ repeat d (n - List.length v).

(** [std::set<int>{a, b}], listed the way the set iterates. *)
Definition std_set_of_two (a b : Z) : list Z :=
  if a =? b then [a] else if a <? b then [a; b] else [b; a].

(** ** Member functions *)

Section HelloTriangleApp.

Variable build : Build.
Variable env : Env.

Definition enable_validation_layers_ : bool := DEBUG build.

Definition initWindow : M unit :=
  call SDL_Init ;;
  ASSERT (SDL_Init_result env =? 0) ;;
  call SDL_CreateWindow ;;
  ASSERT (SDL_CreateWindow_result env).

(** [None]: [SDL_Vulkan_GetInstanceExtensions] failed and the [ASSERT]
    ended the process. *)
Definition getRequiredExtensions : option (list string) :=
  match SDL_Vulkan_GetInstanceExtensions_result env with
  | None => None
  | Some ext_names =>
      let ext_names :=
        if APPLE build
        then ext_names ++ [VK_KHR_PORTABILITY_ENUMERATION_EXTENSION_NAME]
        else ext_names in
      let ext_names :=
        if enable_validation_layers_
        then ext_names ++ [VK_EXT_DEBUG_UTILS_EXTENSION_NAME]
        else ext_names in
      Some ext_names
  end.

Definition printSupportedExtensions : M unit :=
  VKASSERT (vkEnumerateInstanceExtensionProperties_result env).

Definition getValidationLayers : option (list string) :=
  if negb enable_validation_layers_ then Some []
  else
    match vkEnumerateInstanceLayerProperties_result env with
    | None => None
    | Some layer_props =>
        if forallb
             (fun layer =>
                existsb (fun layer_prop => String.eqb layer layer_prop) layer_props)
             validation_layers
        then Some validation_layers
        else None
    end.

Definition makeDbgMessengerCi : VkDebugUtilsMessengerCreateInfoEXT :=
  {| messageSeverity :=
       Z.lor VK_DEBUG_UTILS_MESSAGE_SEVERITY_WARNING_BIT_EXT
             VK_DEBUG_UTILS_MESSAGE_SEVERITY_ERROR_BIT_EXT;
     messageType :=
       Z.lor (Z.lor VK_DEBUG_UTILS_MESSAGE_TYPE_GENERAL_BIT_EXT
                    VK_DEBUG_UTILS_MESSAGE_TYPE_VALIDATION_BIT_EXT)
             VK_DEBUG_UTILS_MESSAGE_TYPE_PERFORMANCE_BIT_EXT |}.

Definition createInstance : M unit :=
  printSupportedExtensions ;;
  ext_names <- lift getRequiredExtensions ;;
  layers <- lift getValidationLayers ;;
  let instance_ci :=
    {| ppEnabledExtensionNames := ext_names;
       ppEnabledLayerNames := layers;
       pNext := if enable_validation_layers_ then Some makeDbgMessengerCi else None;
       flags := if APPLE build
                then Z.lor 0 VK_INSTANCE_CREATE_ENUMERATE_PORTABILITY_BIT_KHR
                else 0 |} in
  call (vkCreateInstance instance_ci) ;;
  VKASSERT (vkCreateInstance_result env).

Definition setupDebugMessenger : M unit :=
  let ci := makeDbgMessengerCi in
  let create_fn := vkCreateDebugUtilsMessengerEXT_loaded env in
  ASSERT create_fn ;;
  call (vkCreateDebugUtilsMessengerEXT ci) ;;
  VKASSERT (vkCreateDebugUtilsMessengerEXT_result env).

Definition createSurface : M unit :=
  call SDL_Vulkan_CreateSurface ;;
  ASSERT (SDL_Vulkan_CreateSurface_result env).

Definition isDeviceSuitable (device : VkPhysicalDevice) : M bool :=
  let indices := findQueueFamilies device in
  if negb (isComplete indices) then ret false
  else if negb (checkDeviceExtensionSupport device) then ret false
  else
    let swapchain_support := querySwapChainSupport device in
    if is_empty_vector (formats swapchain_support)
       || is_empty_vector (present_modes swapchain_support)
    then ret false
    else
      assign (set_q_indices_ indices) ;;
      assign (set_swapchain_support_ swapchain_support) ;;
      ret true.

Fixpoint pickPhysicalDevice_loop (devices : list VkPhysicalDevice) : M unit :=
  match devices with
  | [] => ret tt
  | device :: rest =>
      suitable <- isDeviceSuitable device ;;
      if suitable : bool
      then assign (set_physical_device_ (Some device))
      else pickPhysicalDevice_loop rest
  end.

Definition pickPhysicalDevice : M unit :=
  let devices := vkEnumeratePhysicalDevices_result env in
  ASSERT (0 <? Z.of_nat (List.length devices)) ;;
  pickPhysicalDevice_loop devices ;;
  app <- members ;;
  ASSERT (match physical_device_ app with Some _ => true | None => false end).

Definition createLogicalDevice : M unit :=
  app <- members ;;
  let unique_q_indices :=
    std_set_of_two (gfx_family (q_indices_ app)) (present_family (q_indices_ app)) in
  let device_q_cis :=
    map (fun q_index =>
           {| queueFamilyIndex := static_cast_uint32_t q_index; queueCount := 1 |})
        unique_q_indices in
  let device_ci :=
    {| pQueueCreateInfos := device_q_cis;
       device_ppEnabledExtensionNames := device_extensions;
       device_ppEnabledLayerNames :=
         if enable_validation_layers_ then validation_layers else [] |} in
  call (vkCreateDevice device_ci) ;;
  VKASSERT (vkCreateDevice_result env) ;;
  ASSERT (vkGetDeviceQueue_result env (gfx_family (q_indices_ app))) ;;
  ASSERT (vkGetDeviceQueue_result env (present_family (q_indices_ app))).

Definition createSwapChain : M unit :=
  app <- members ;;
  swapchain_ci <- lift (swapchain_ci (SDL_GL_GetDrawableSize_result env)
                                     (q_indices_ app) (swapchain_support_ app)) ;;
  call (vkCreateSwapchainKHR swapchain_ci) ;;
  VKASSERT (vkCreateSwapchainKHR_result env) ;;
  assign (set_swapchain_images_ (vkGetSwapchainImagesKHR_result env)) ;;
  assign (set_swapchain_format_ (ci_imageFormat swapchain_ci)) ;;
  assign (set_swapchain_extent_ (ci_imageExtent swapchain_ci)).

Fixpoint createImageViews_loop (images : list VkImage) (i : nat) : M unit :=
  match images with
  | [] => ret tt
  | image_i :: rest =>
      app <- members ;;
      let ci := {| image := image_i; view_format := swapchain_format_ app |} in
      match vkCreateImageView_result env i with
      | None => VKASSERT false
      | Some view =>
          call (vkCreateImageView ci view) ;;
          assign (fun a =>
                    set_swapchain_views_ (assign_at i view (swapchain_views_ a)) a) ;;
          createImageViews_loop rest (S i)
      end
  end.

Definition createImageViews : M unit :=
  app <- members ;;
  assign (set_swapchain_views_
            (resize (List.length (swapchain_images_ app)) 0 (swapchain_views_ app))) ;;
  createImageViews_loop (swapchain_images_ app) 0.

Definition initVulkan : M unit :=
  createInstance ;;
  (if enable_validation_layers_ then setupDebugMessenger else ret tt) ;;
  createSurface ;;
  pickPhysicalDevice ;;
  createLogicalDevice ;;
  createSwapChain ;;
  createImageViews.

(** The loop is left at the first close event; [None] when the events the
    environment lists hold none. *)
Fixpoint mainLoop_poll (events : list bool) : M unit :=
  match events with
  | [] => lift None
  | close :: later => if close then ret tt else mainLoop_poll later
  end.

Definition mainLoop : M unit := mainLoop_poll (SDL_PollEvent_results env).

Definition cleanup : M unit :=
  app <- members ;;
  for_each (swapchain_views_ app)
           (fun image_view => call (vkDestroyImageView image_view)) ;;
  call vkDestroySwapchainKHR ;;
  call vkDestroyDevice ;;
  (if enable_validation_layers_
   then
     let destroy_dbg_fn := vkDestroyDebugUtilsMessengerEXT_loaded env in
     ASSERT destroy_dbg_fn ;;
     call vkDestroyDebugUtilsMessengerEXT
   else ret tt) ;;
  call vkDestroySurfaceKHR ;;
  call vkDestroyInstance ;;
  call SDL_DestroyWindow ;;
  call SDL_Quit.

Definition run : M unit :=
  initWindow ;;
  initVulkan ;;
  mainLoop ;;
  cleanup.

End HelloTriangleApp.

(** ** Vocabulary of the specification *)

(** The preferred pair: 8-bit BGRA, sRGB, non-linear colour space. *)
Definition preferred_format : VkSurfaceFormatKHR :=
  {| format := VK_FORMAT_B8G8R8A8_SRGB;
     colorSpace := VK_COLOR_SPACE_SRGB_NONLINEAR_KHR |}.

(** The special value of [currentExtent]: "the swapchain decides". *)
Definition any_extent : VkExtent2D :=
  {| width := UINT32_MAX; height := UINT32_MAX |}.

(** A drawable size as SDL reports it: two [int]s that are not negative. *)
Definition is_drawable_size (drawable : Z * Z) : Prop :=
  0 <= fst drawable <= INT_MAX /\ 0 <= snd drawable <= INT_MAX.

(** A family index that is resolved: an [int] that is not negative. *)
Definition resolved_family (i : Z) : Prop := 0 <= i <= INT_MAX.

(** [required] is a sub-multiset of [available]: every name occurs in
    [available] at least as often as in [required]. *)
Definition multiset_subset (required available : list string) : Prop :=
  forall name : string,
    (count_occ string_dec required name <= count_occ string_dec available name)%nat.

(** [a <= b] on strings, from [operator<]: [b] is not less than [a]. *)
Definition string_le (a b : string) : Prop := String.ltb b a = false.

(** Ascending, as [std::sort] leaves a range. *)
Definition ascending (l : list string) : Prop := StronglySorted string_le l.


(** The greatest index below [m] at which [p] holds, [-1] when there is none. *)
Fixpoint last_match (p : Z -> bool) (m : nat) : Z :=
  match m with
  | O => -1
  | S k => if p (Z.of_nat k) then Z.of_nat k else last_match p k
  end.

(** Family [i] of the device has the graphics bit. *)
Definition graphics_at (device : VkPhysicalDevice) (i : Z) : bool :=
  match nth_error (queue_family_properties device) (Z.to_nat i) with
  | Some q_family => has_graphics q_family
  | None => false
  end.

(** The mapping that holds, for graphics and for presentation, the last
    matching index among the first [m] families of the device. *)
Definition last_matches (device : VkPhysicalDevice) (m : nat) : QueueFamilyIndices :=
  {| gfx_family := last_match (graphics_at device) m;
     present_family := last_match (surface_support device) m |}.


(** The suitability the specification asks of a device. *)
Definition suitable (device : VkPhysicalDevice) : Prop :=
  isComplete (findQueueFamilies device) = true /\
  multiset_subset device_extensions
    (map extensionName (device_extension_properties device)) /\
  surface_formats device <> [] /\
  surface_present_modes device <> [].

(** The members after [isDeviceSuitable] has cached the mapping and the
    swapchain support of a device. *)
Definition cache (device : VkPhysicalDevice) (app : App) : App :=
  set_swapchain_support_ (querySwapChainSupport device)
    (set_q_indices_ (findQueueFamilies device) app).

(** [m] logs the creation of the objects [objs s'], [s'] being the state it
    ends in, and no destruction. *)
Definition logs {A : Type} (m : M A) (objs : State -> list Object) : Prop :=
  forall (s : State) (a : A) (s' : State),
    m s = Some (a, s') ->
    created_objects (snd s') = created_objects (snd s) ++ objs s' /\
    destroyed_objects (snd s') = destroyed_objects (snd s).

(** The order in which [cleanup] is to destroy, given the image views. *)
Definition teardown_order (debug : bool) (views : list VkImageView) : list Call :=
  map vkDestroyImageView views ++
  [vkDestroySwapchainKHR; vkDestroyDevice] ++
  (if debug then [vkDestroyDebugUtilsMessengerEXT] else []) ++
  [vkDestroySurfaceKHR; vkDestroyInstance; SDL_DestroyWindow; SDL_Quit].

(** The objects [initWindow] and [initVulkan] create, in creation order. *)
Definition creation_order (debug : bool) (views : list VkImageView) : list Object :=
  [WindowingSubsystem; Window; Instance] ++
  (if debug then [DebugMessenger] else []) ++
  [Surface; LogicalDevice; Swapchain] ++
  map ImageView views.

(** ** Sample inputs *)

Definition extent (w h : Z) : VkExtent2D := {| width := w; height := h |}.

(** A surface that leaves the extent to the swapchain. *)
Definition caps_any_extent : VkSurfaceCapabilitiesKHR :=
  {| minImageCount := 2; maxImageCount := 0;
     currentExtent := any_extent;
     minImageExtent := extent 1 1; maxImageExtent := extent 640 4096;
     currentTransform := 1 |}.

(** A surface of a fixed size that allows exactly two images. *)
Definition caps_fixed_extent : VkSurfaceCapabilitiesKHR :=
  {| minImageCount := 2; maxImageCount := 2;
     currentExtent := extent 800 600;
     minImageExtent := extent 800 600; maxImageExtent := extent 800 600;
     currentTransform := 1 |}.

(** Only the width of the current extent has the special value. *)
Definition caps_special_width : VkSurfaceCapabilitiesKHR :=
  {| minImageCount := 2; maxImageCount := 8;
     currentExtent := extent UINT32_MAX 600;
     minImageExtent := extent 1 1; maxImageExtent := extent 4096 4096;
     currentTransform := 1 |}.

(** Only the height of the current extent has the special value. *)
Definition caps_special_height : VkSurfaceCapabilitiesKHR :=
  {| minImageCount := 2; maxImageCount := 8;
     currentExtent := extent 800 UINT32_MAX;
     minImageExtent := extent 1 1; maxImageExtent := extent 4096 4096;
     currentTransform := 1 |}.

Definition format_unorm : VkSurfaceFormatKHR := {| format := 44; colorSpace := 0 |}.
Definition format_rgba_srgb : VkSurfaceFormatKHR := {| format := 43; colorSpace := 0 |}.

Definition support_of (c : VkSurfaceCapabilitiesKHR) : SwapchainSupportDetails :=
  {| caps := c;
     formats := [format_unorm; preferred_format];
     present_modes := [VK_PRESENT_MODE_FIFO_KHR] |}.


Definition ext (name : string) : VkExtensionProperties :=
  {| extensionName := name; specVersion := 1 |}.

Definition family (queue_flags : Z) : VkQueueFamilyProperties :=
  {| queueFlags := queue_flags |}.

(** Graphics on families 0 and 1 (flags 7 and 1), compute on family 2
    (flag 2), presentation on families 1 and 2. *)
Definition device_three_families : VkPhysicalDevice :=
  {| queue_family_properties := [family 7; family 1; family 2];
     surface_support := fun i => (i =? 1) || (i =? 2);
     device_extension_properties :=
       [ext "VK_KHR_maintenance1"; ext "VK_KHR_swapchain"; ext "VK_EXT_robustness2"];
     surface_capabilities := caps_any_extent;
     surface_formats := [format_unorm; preferred_format];
     surface_present_modes := [VK_PRESENT_MODE_FIFO_KHR; VK_PRESENT_MODE_MAILBOX_KHR] |}.

(** Graphics on families 0 and 1, presentation on family 2 only. *)
Definition device_late_present : VkPhysicalDevice :=
  {| queue_family_properties := [family 1; family 3; family 4; family 1];
     surface_support := fun i => i =? 2;
     device_extension_properties := [ext "VK_KHR_swapchain"];
     surface_capabilities := caps_fixed_extent;
     surface_formats := [format_unorm];
     surface_present_modes := [VK_PRESENT_MODE_FIFO_KHR] |}.

(** Presentation on families 0 and 1, graphics on family 1 only: family 1
    resolves graphics and, in the same turn, replaces the present index. *)
Definition device_present_first : VkPhysicalDevice :=
  {| queue_family_properties := [family 2; family 1; family 1];
     surface_support := fun i => (i =? 0) || (i =? 1);
     device_extension_properties := [ext "VK_KHR_swapchain"];
     surface_capabilities := caps_fixed_extent;
     surface_formats := [format_unorm];
     surface_present_modes := [VK_PRESENT_MODE_FIFO_KHR] |}.

(** The swapchain extension is spelled in another case. *)
Definition device_wrong_case : VkPhysicalDevice :=
  {| queue_family_properties := [family 1];
     surface_support := fun i => i =? 0;
     device_extension_properties := [ext "vk_khr_swapchain"; ext "VK_KHR_maintenance1"];
     surface_capabilities := caps_fixed_extent;
     surface_formats := [format_unorm];
     surface_present_modes := [VK_PRESENT_MODE_FIFO_KHR] |}.

(** No present mode. *)
Definition device_no_present_mode : VkPhysicalDevice :=
  {| queue_family_properties := [family 1];
     surface_support := fun i => i =? 0;
     device_extension_properties := [ext "VK_KHR_swapchain"];
     surface_capabilities := caps_fixed_extent;
     surface_formats := [format_unorm];
     surface_present_modes := [] |}.

(** No family with the graphics bit. *)
Definition device_compute_only : VkPhysicalDevice :=
  {| queue_family_properties := [family 2; family 4];
     surface_support := fun i => i =? 0;
     device_extension_properties := [ext "VK_KHR_swapchain"];
     surface_capabilities := caps_fixed_extent;
     surface_formats := [format_unorm];
     surface_present_modes := [VK_PRESENT_MODE_FIFO_KHR] |}.

(** Members before [initVulkan]: what the class initialises, and zeroes for
    what it leaves indeterminate. *)
Definition fresh_app : App :=
  {| physical_device_ := None;
     q_indices_ := {| gfx_family := -1; present_family := -1 |};
     swapchain_support_ :=
       {| caps := {| minImageCount := 0; maxImageCount := 0;
                     currentExtent := extent 0 0;
                     minImageExtent := extent 0 0; maxImageExtent := extent 0 0;
                     currentTransform := 0 |};
          formats := []; present_modes := [] |};
     swapchain_images_ := [];
     swapchain_format_ := 0;
     swapchain_extent_ := extent 0 0;
     swapchain_views_ := [] |}.

(** A platform on which every call succeeds, the window is closed at the
    third poll, and image view [i] gets the handle [100 + i]. *)
Definition platform (window_system_exts : list string)
    (devices : list VkPhysicalDevice) (images : list VkImage) : Env :=
  {| SDL_Init_result := 0;
     SDL_CreateWindow_result := true;
     SDL_Vulkan_GetInstanceExtensions_result := Some window_system_exts;
     vkEnumerateInstanceExtensionProperties_result := true;
     vkEnumerateInstanceLayerProperties_result :=
       Some ["VK_LAYER_KHRONOS_validation"%string];
     vkCreateInstance_result := true;
     vkCreateDebugUtilsMessengerEXT_loaded := true;
     vkCreateDebugUtilsMessengerEXT_result := true;
     SDL_Vulkan_CreateSurface_result := true;
     vkEnumeratePhysicalDevices_result := devices;
     vkCreateDevice_result := true;
     vkGetDeviceQueue_result := fun _ => true;
     SDL_GL_GetDrawableSize_result := (800, 600);
     vkCreateSwapchainKHR_result := true;
     vkGetSwapchainImagesKHR_result := images;
     vkCreateImageView_result := fun i => Some (100 + Z.of_nat i);
     vkDestroyDebugUtilsMessengerEXT_loaded := true;
     SDL_PollEvent_results := [false; false; true] |}.

(** Three unsuitable devices are enumerated before two suitable ones. *)
Definition env_ok : Env :=
  platform ["VK_KHR_surface"%string; "VK_KHR_xcb_surface"%string]
           [device_wrong_case; device_no_present_mode; device_compute_only;
            device_late_present; device_three_families]
           [11; 12; 13].

(** The window system lists the debug-utils extension itself. *)
Definition env_debug_utils_listed : Env :=
  platform ["VK_KHR_surface"%string; "VK_EXT_debug_utils"%string]
           [device_three_families] [11; 12].

(** The swapchain has a single image. *)
Definition env_one_image : Env :=
  platform ["VK_KHR_surface"%string; "VK_KHR_xcb_surface"%string]
           [device_three_families] [11].

Definition debug_build : Build := {| DEBUG := true; APPLE := false |}.
Definition release_build : Build := {| DEBUG := false; APPLE := false |}.


(** Members whose swapchain has three image views. *)
Definition app_three_views : App := set_swapchain_views_ [100; 101; 102] fresh_app.


(** [m] leaves the members as they are. *)
Definition keeps {A : Type} (m : M A) : Prop :=
  forall (s : State) (a : A) (s' : State), m s = Some (a, s') -> fst s' = fst s.

(** The calls of [createImageViews] for the images and the handles written
    for them, every view in the format [fmt]. *)
Definition image_view_calls (fmt : VkFormat) (images : list VkImage)
    (views : list VkImageView) : list Call :=
  map (fun iv => vkCreateImageView {| image := fst iv; view_format := fmt |} (snd iv))
      (combine images views).

(** [m] returns from [s]: no [ASSERT] ends the process. *)
Definition succeeds {A : Type} (m : M A) (s : State) : Prop :=
  exists (a : A) (s' : State), m s = Some (a, s').

(** [device] is the first suitable device of the enumeration. *)
Definition first_suitable (devices : list VkPhysicalDevice)
    (device : VkPhysicalDevice) : Prop :=
  exists before after,
    devices = before ++ device :: after /\
    Forall (fun d => ~ suitable d) before /\
    suitable device.

(** What a build needs of the platform for [run] to return. *)
Definition supports_run (build : Build) (env : Env) : Prop :=
  SDL_Init_result env = 0 /\
  SDL_CreateWindow_result env = true /\
  vkEnumerateInstanceExtensionProperties_result env = true /\
  SDL_Vulkan_GetInstanceExtensions_result env <> None /\
  (DEBUG build = true ->
   (exists layer_props,
      vkEnumerateInstanceLayerProperties_result env = Some layer_props /\
      forall layer, In layer validation_layers -> In layer layer_props) /\
   vkCreateDebugUtilsMessengerEXT_loaded env = true /\
   vkCreateDebugUtilsMessengerEXT_result env = true /\
   vkDestroyDebugUtilsMessengerEXT_loaded env = true) /\
  vkCreateInstance_result env = true /\
  SDL_Vulkan_CreateSurface_result env = true /\
  (exists device,
     first_suitable (vkEnumeratePhysicalDevices_result env) device /\
     vkGetDeviceQueue_result env (gfx_family (findQueueFamilies device)) = true /\
     vkGetDeviceQueue_result env (present_family (findQueueFamilies device)) = true) /\
  vkCreateDevice_result env = true /\
  vkCreateSwapchainKHR_result env = true /\
  (forall k, (k < List.length (vkGetSwapchainImagesKHR_result env))%nat ->
             vkCreateImageView_result env k <> None) /\
  In true (SDL_PollEvent_results env).


(** The swapchain decides the extent, within bounds that differ per axis. *)
Definition caps_wide_bounds : VkSurfaceCapabilitiesKHR :=
  {| minImageCount := 3; maxImageCount := 8;
     currentExtent := any_extent;
     minImageExtent := extent 16 16; maxImageExtent := extent 2048 1024;
     currentTransform := 1 |}.


(** * Properties *)

(** ** Machine integers *)

Lemma static_cast_uint32_t_id (z : Z) :
  0 <= z <= UINT32_MAX -> static_cast_uint32_t z = z.
Proof.
  intros Hz. unfold static_cast_uint32_t, UINT32_MAX in *.
  apply Z.mod_small. lia.
Qed.

Lemma static_cast_uint32_t_int (z : Z) :
  0 <= z <= INT_MAX -> static_cast_uint32_t z = z.
Proof.
  intros Hz. apply static_cast_uint32_t_id. unfold INT_MAX, UINT32_MAX in *. lia.
Qed.

Lemma uint32_add_no_wrap (a b : Z) :
  0 <= a + b <= UINT32_MAX -> uint32_add a b = a + b.
Proof. intros H. unfold uint32_add. now apply static_cast_uint32_t_id. Qed.

Lemma std_min_spec (a b : Z) : std_min a b = Z.min a b.
Proof. unfold std_min. destruct (Z.ltb_spec b a); lia. Qed.

(** With bounds in order [std::clamp] is the mathematical clamp. *)
Lemma std_clamp_spec (v lo hi : Z) :
  lo <= hi -> std_clamp v lo hi = Z.max lo (Z.min v hi).
Proof.
  intros H. unfold std_clamp, std_min, std_max.
  destruct (Z.ltb_spec v lo);
    [destruct (Z.ltb_spec hi lo) | destruct (Z.ltb_spec hi v)]; lia.
Qed.

(** ** Swapchain negotiator *)

Lemma is_preferred_format_iff (f : VkSurfaceFormatKHR) :
  is_preferred_format f = true <-> f = preferred_format.
Proof.
  unfold is_preferred_format, preferred_format. destruct f as [fmt cs]; simpl.
  rewrite andb_true_iff, !Z.eqb_eq. split.
  - intros [-> ->]. reflexivity.
  - intros H. injection H as -> ->. split; reflexivity.
Qed.

Lemma chooseSwapSurfaceFormat_loop_found (all rest : list VkSurfaceFormatKHR) :
  In preferred_format rest ->
  chooseSwapSurfaceFormat_loop all rest = Some preferred_format.
Proof.
  induction rest as [|f rest IH]; simpl; [tauto|].
  intros Hin. destruct (is_preferred_format f) eqn:Hf.
  - apply is_preferred_format_iff in Hf. now subst.
  - destruct Hin as [->|Hin]; [|auto].
    assert (is_preferred_format preferred_format = true)
      by now apply is_preferred_format_iff.
    congruence.
Qed.

Lemma chooseSwapSurfaceFormat_loop_fallback (all rest : list VkSurfaceFormatKHR) :
  ~ In preferred_format rest ->
  chooseSwapSurfaceFormat_loop all rest = nth_error all 0.
Proof.
  induction rest as [|f rest IH]; simpl; [reflexivity|].
  intros Hnin. destruct (is_preferred_format f) eqn:Hf.
  - apply is_preferred_format_iff in Hf. subst. tauto.
  - apply IH. tauto.
Qed.

(** C2. On a non-empty list of surface formats, [first :: others],
    [chooseSwapSurfaceFormat] returns the B8G8R8A8_SRGB / SRGB-nonlinear pair
    whenever that pair occurs anywhere in the list, at any position, and
    otherwise returns the first element of the list. *)
Theorem chooseSwapSurfaceFormat_correct
    (first : VkSurfaceFormatKHR) (others : list VkSurfaceFormatKHR) :
  (In preferred_format (first :: others) ->
   chooseSwapSurfaceFormat (first :: others) = Some preferred_format) /\
  (~ In preferred_format (first :: others) ->
   chooseSwapSurfaceFormat (first :: others) = Some first).
Proof.
  split; intros H; unfold chooseSwapSurfaceFormat;
    change (List.length (first :: others) =? 0)%nat with false; cbv iota.
  - now apply chooseSwapSurfaceFormat_loop_found.
  - now rewrite chooseSwapSurfaceFormat_loop_fallback.
Qed.

Lemma std_find_found_iff (value : Z) (l : list Z) :
  std_find_found value l = true <-> In value l.
Proof.
  unfold std_find_found. rewrite existsb_exists. split.
  - intros [x [Hin Hx]]. apply Z.eqb_eq in Hx. now subst.
  - intros Hin. exists value. split; [assumption | apply Z.eqb_refl].
Qed.

(** C6. [chooseSwapPresentMode] returns the mailbox mode if it occurs
    anywhere in the list of present modes, and the FIFO mode otherwise; this
    holds for every list, the non-empty ones among them. *)
Theorem chooseSwapPresentMode_correct (present_modes : list VkPresentModeKHR) :
  (In VK_PRESENT_MODE_MAILBOX_KHR present_modes ->
   chooseSwapPresentMode present_modes = VK_PRESENT_MODE_MAILBOX_KHR) /\
  (~ In VK_PRESENT_MODE_MAILBOX_KHR present_modes ->
   chooseSwapPresentMode present_modes = VK_PRESENT_MODE_FIFO_KHR).
Proof.
  unfold chooseSwapPresentMode.
  destruct (std_find_found VK_PRESENT_MODE_MAILBOX_KHR present_modes) eqn:Hf.
  - apply std_find_found_iff in Hf. split; [reflexivity | tauto].
  - split; [|reflexivity]. intros Hin. apply std_find_found_iff in Hin. congruence.
Qed.

Example chooseSwapSurfaceFormat_anywhere :
  chooseSwapSurfaceFormat [format_unorm; format_rgba_srgb; preferred_format]
  = Some preferred_format.
Proof. reflexivity. Qed.

Example chooseSwapSurfaceFormat_first :
  chooseSwapSurfaceFormat [format_unorm; format_rgba_srgb] = Some format_unorm.
Proof. reflexivity. Qed.

Lemma chooseSwapSurfaceFormat_correct_witness :
  chooseSwapSurfaceFormat [format_unorm; preferred_format] = Some preferred_format /\
  chooseSwapSurfaceFormat [format_unorm; format_rgba_srgb] = Some format_unorm.
Proof.
  split.
  - apply (proj1 (chooseSwapSurfaceFormat_correct format_unorm [preferred_format])).
    simpl. auto.
  - apply (proj2 (chooseSwapSurfaceFormat_correct format_unorm [format_rgba_srgb])).
    simpl. intros [H|[H|[]]]; discriminate H.
Defined.

Lemma chooseSwapPresentMode_correct_witness :
  chooseSwapPresentMode [0; VK_PRESENT_MODE_FIFO_KHR; VK_PRESENT_MODE_MAILBOX_KHR]
  = VK_PRESENT_MODE_MAILBOX_KHR /\
  chooseSwapPresentMode [0; 3] = VK_PRESENT_MODE_FIFO_KHR.
Proof.
  split.
  - apply (proj1 (chooseSwapPresentMode_correct
                    [0; VK_PRESENT_MODE_FIFO_KHR; VK_PRESENT_MODE_MAILBOX_KHR])).
    simpl. auto.
  - apply (proj2 (chooseSwapPresentMode_correct [0; 3])).
    simpl. intros [H|[H|[]]]; discriminate H.
Defined.

(** C3, as stated, fails: a current extent whose width alone has the special
    value is not the "any extent" value, and still the drawable size is
    taken, not the current extent. *)
Lemma chooseSwapExtent_not_verbatim :
  ~ (forall (caps : VkSurfaceCapabilitiesKHR) (drawable : Z * Z),
       is_drawable_size drawable ->
       currentExtent caps <> any_extent ->
       chooseSwapExtent drawable caps = currentExtent caps).
Proof.
  intros H.
  specialize (H caps_special_width (800, 600)).
  assert (Hd : is_drawable_size (800, 600)) by (unfold is_drawable_size, INT_MAX; simpl; lia).
  assert (Hne : currentExtent caps_special_width <> any_extent) by discriminate.
  specialize (H Hd Hne). vm_compute in H. discriminate H.
Qed.

(** C3, amended. When the width of the current extent is the special value
    0xFFFFFFFF, the drawable size [(W, H)] is a pair of [int]s that are not
    negative and the minimum image extent does not exceed the maximum image
    extent on either axis, [chooseSwapExtent] returns the drawable size
    clamped per axis into the image-extent bounds; when the width of the
    current extent is not the special value, it returns the current extent
    as it is, whatever the drawable size. *)
Theorem chooseSwapExtent_correct (caps : VkSurfaceCapabilitiesKHR) (W H : Z) :
  (width (currentExtent caps) = UINT32_MAX ->
   is_drawable_size (W, H) ->
   width (minImageExtent caps) <= width (maxImageExtent caps) ->
   height (minImageExtent caps) <= height (maxImageExtent caps) ->
   chooseSwapExtent (W, H) caps =
   {| width := Z.max (width (minImageExtent caps))
                     (Z.min W (width (maxImageExtent caps)));
      height := Z.max (height (minImageExtent caps))
                      (Z.min H (height (maxImageExtent caps))) |}) /\
  (width (currentExtent caps) <> UINT32_MAX ->
   forall drawable : Z * Z, chooseSwapExtent drawable caps = currentExtent caps).
Proof.
  split.
  - intros Hw [HW HH] Hbw Hbh. simpl in HW, HH.
    unfold chooseSwapExtent. rewrite Hw, Z.eqb_refl. simpl.
    rewrite !static_cast_uint32_t_int by assumption.
    now rewrite !std_clamp_spec by assumption.
  - intros Hw drawable. unfold chooseSwapExtent.
    apply Z.eqb_neq in Hw. now rewrite Hw.
Qed.

Lemma chooseSwapExtent_correct_witness :
  chooseSwapExtent (800, 600) caps_any_extent = extent 640 600 /\
  chooseSwapExtent (1024, 768) caps_fixed_extent = extent 800 600.
Proof.
  split.
  - apply (proj1 (chooseSwapExtent_correct caps_any_extent 800 600)).
    + reflexivity.
    + unfold is_drawable_size, INT_MAX. simpl. lia.
    + simpl. lia.
    + simpl. lia.
  - apply (proj2 (chooseSwapExtent_correct caps_fixed_extent 800 600)).
    discriminate.
Defined.

(** C10. [chooseSwapExtent] looks at the width of the current extent only:
    whenever that width is not the special value, the whole current extent,
    its height included, is returned as it is, also when the height is the
    special value. *)
Theorem chooseSwapExtent_width_only
    (caps : VkSurfaceCapabilitiesKHR) (drawable : Z * Z) :
  width (currentExtent caps) <> UINT32_MAX ->
  chooseSwapExtent drawable caps = currentExtent caps /\
  (height (currentExtent caps) = UINT32_MAX ->
   chooseSwapExtent drawable caps =
   {| width := width (currentExtent caps); height := UINT32_MAX |}).
Proof.
  intros Hw.
  assert (E : chooseSwapExtent drawable caps = currentExtent caps).
  { unfold chooseSwapExtent. apply Z.eqb_neq in Hw. now rewrite Hw. }
  split; [exact E|].
  intros Hh. rewrite E. destruct (currentExtent caps) as [w h]. simpl in *.
  now subst.
Qed.

Lemma chooseSwapExtent_width_only_witness :
  chooseSwapExtent (1024, 768) caps_special_height = extent 800 UINT32_MAX.
Proof.
  refine (proj2 (chooseSwapExtent_width_only caps_special_height (1024, 768) _) _).
  - discriminate.
  - reflexivity.
Defined.

Lemma chooseSwapSurfaceFormat_defined (formats : list VkSurfaceFormatKHR) :
  formats <> [] -> exists f, chooseSwapSurfaceFormat formats = Some f.
Proof.
  destruct formats as [|first others]; [congruence|]. intros _.
  unfold chooseSwapSurfaceFormat.
  change (List.length (first :: others) =? 0)%nat with false. cbv iota.
  generalize (first :: others) at 2 as rest.
  induction rest as [|f rest IH]; simpl.
  - now exists first.
  - destruct (is_preferred_format f); [now exists f | exact IH].
Qed.

(** [createSwapChain] builds its create info whenever a format can be chosen. *)
Lemma swapchain_ci_defined (drawable : Z * Z) (q : QueueFamilyIndices)
    (sup : SwapchainSupportDetails) :
  formats sup <> [] ->
  exists f,
    chooseSwapSurfaceFormat (formats sup) = Some f /\
    swapchain_ci drawable q sup =
    Some {|
      ci_minImageCount := requested_image_count (caps sup);
      ci_imageFormat := format f;
      ci_imageColorSpace := colorSpace f;
      ci_imageExtent := chooseSwapExtent drawable (caps sup);
      ci_imageArrayLayers := 1;
      ci_imageUsage := VK_IMAGE_USAGE_COLOR_ATTACHMENT_BIT;
      ci_imageSharingMode :=
        if negb (gfx_family q =? present_family q)
        then VK_SHARING_MODE_CONCURRENT else VK_SHARING_MODE_EXCLUSIVE;
      ci_queueFamilyIndexCount :=
        if negb (gfx_family q =? present_family q) then 2 else 0;
      ci_pQueueFamilyIndices :=
        if negb (gfx_family q =? present_family q)
        then Some [static_cast_uint32_t (gfx_family q);
                   static_cast_uint32_t (present_family q)]
        else None;
      ci_preTransform := currentTransform (caps sup);
      ci_compositeAlpha := VK_COMPOSITE_ALPHA_OPAQUE_BIT_KHR;
      ci_presentMode := chooseSwapPresentMode (present_modes sup);
      ci_clipped := true;
      ci_oldSwapchain := None
    |}.
Proof.
  intros Hne. destruct (chooseSwapSurfaceFormat_defined _ Hne) as [f Hf].
  exists f. split; [exact Hf|]. unfold swapchain_ci. now rewrite Hf.
Qed.

Lemma requested_image_count_unbounded (caps : VkSurfaceCapabilitiesKHR) :
  maxImageCount caps = 0 ->
  requested_image_count caps = uint32_add (minImageCount caps) 1.
Proof. intros H. unfold requested_image_count. now rewrite H. Qed.

Lemma requested_image_count_bounded (caps : VkSurfaceCapabilitiesKHR) :
  0 < maxImageCount caps ->
  requested_image_count caps =
  Z.min (uint32_add (minImageCount caps) 1) (maxImageCount caps).
Proof.
  intros H. unfold requested_image_count.
  apply Z.ltb_lt in H. rewrite H. apply std_min_spec.
Qed.

(** C7. The image count [createSwapChain] requests is [minImageCount + 1]
    when [maxImageCount] is zero and [min (minImageCount + 1) maxImageCount]
    when it is not; the sum is the one of [uint32_t], which is the sum of the
    integers unless [minImageCount] is 0xFFFFFFFF.  In particular 2 and 0
    give 3, and 2 and 2 give 2. *)
Theorem requested_image_count_correct (drawable : Z * Z) (q : QueueFamilyIndices)
    (sup : SwapchainSupportDetails) :
  formats sup <> [] ->
  is_uint32_t (minImageCount (caps sup)) ->
  is_uint32_t (maxImageCount (caps sup)) ->
  exists ci,
    swapchain_ci drawable q sup = Some ci /\
    (maxImageCount (caps sup) = 0 ->
     ci_minImageCount ci = uint32_add (minImageCount (caps sup)) 1) /\
    (maxImageCount (caps sup) <> 0 ->
     ci_minImageCount ci =
     Z.min (uint32_add (minImageCount (caps sup)) 1) (maxImageCount (caps sup))) /\
    (minImageCount (caps sup) < UINT32_MAX ->
     uint32_add (minImageCount (caps sup)) 1 = minImageCount (caps sup) + 1) /\
    (minImageCount (caps sup) = 2 -> maxImageCount (caps sup) = 0 ->
     ci_minImageCount ci = 3) /\
    (minImageCount (caps sup) = 2 -> maxImageCount (caps sup) = 2 ->
     ci_minImageCount ci = 2).
Proof.
  intros Hne [Hlo _] [Hhi _].
  destruct (swapchain_ci_defined drawable q sup Hne) as [f [_ E]].
  eexists. split; [exact E|]. cbn [ci_minImageCount].
  repeat split.
  - apply requested_image_count_unbounded.
  - intros H0. apply requested_image_count_bounded. lia.
  - intros Hlt. apply uint32_add_no_wrap. lia.
  - intros H2 H0. rewrite requested_image_count_unbounded by assumption.
    now rewrite H2.
  - intros H2 H2'. rewrite requested_image_count_bounded by lia.
    rewrite H2, H2'. reflexivity.
Qed.

Lemma requested_image_count_correct_witness :
  option_map ci_minImageCount
    (swapchain_ci (800, 600) {| gfx_family := 0; present_family := 0 |}
                  (support_of caps_any_extent)) = Some 3 /\
  option_map ci_minImageCount
    (swapchain_ci (800, 600) {| gfx_family := 0; present_family := 0 |}
                  (support_of caps_fixed_extent)) = Some 2.
Proof.
  split.
  - destruct (requested_image_count_correct (800, 600)
                {| gfx_family := 0; present_family := 0 |}
                (support_of caps_any_extent))
      as [ci [E [_ [_ [_ [H _]]]]]].
    + discriminate.
    + unfold is_uint32_t, UINT32_MAX; simpl; lia.
    + unfold is_uint32_t, UINT32_MAX; simpl; lia.
    + rewrite E. simpl. f_equal. apply H; reflexivity.
  - destruct (requested_image_count_correct (800, 600)
                {| gfx_family := 0; present_family := 0 |}
                (support_of caps_fixed_extent))
      as [ci [E [_ [_ [_ [_ H]]]]]].
    + discriminate.
    + unfold is_uint32_t, UINT32_MAX; simpl; lia.
    + unfold is_uint32_t, UINT32_MAX; simpl; lia.
    + rewrite E. simpl. f_equal. apply H; reflexivity.
Defined.

(** C4. For a cached queue-family mapping, whose two indices are resolved,
    the create info of the swapchain declares concurrent sharing over exactly
    the two indices [graphics; present], in that order, when they differ, and
    exclusive sharing with count 0 and a null index list when they are
    equal. *)
Theorem swapchain_ci_sharing_mode (drawable : Z * Z) (q : QueueFamilyIndices)
    (sup : SwapchainSupportDetails) :
  resolved_family (gfx_family q) ->
  resolved_family (present_family q) ->
  formats sup <> [] ->
  exists ci,
    swapchain_ci drawable q sup = Some ci /\
    (gfx_family q <> present_family q ->
     ci_imageSharingMode ci = VK_SHARING_MODE_CONCURRENT /\
     ci_queueFamilyIndexCount ci = 2 /\
     ci_pQueueFamilyIndices ci = Some [gfx_family q; present_family q]) /\
    (gfx_family q = present_family q ->
     ci_imageSharingMode ci = VK_SHARING_MODE_EXCLUSIVE /\
     ci_queueFamilyIndexCount ci = 0 /\
     ci_pQueueFamilyIndices ci = None).
Proof.
  intros Hg Hp Hne.
  destruct (swapchain_ci_defined drawable q sup Hne) as [f [_ E]].
  eexists. split; [exact E|].
  cbn [ci_imageSharingMode ci_queueFamilyIndexCount ci_pQueueFamilyIndices].
  split; intros H.
  - apply Z.eqb_neq in H. rewrite H. cbn [negb].
    rewrite !static_cast_uint32_t_int by assumption. auto.
  - apply Z.eqb_eq in H. rewrite H. cbn [negb]. auto.
Qed.

Lemma swapchain_ci_sharing_mode_witness :
  option_map ci_pQueueFamilyIndices
    (swapchain_ci (800, 600) {| gfx_family := 0; present_family := 2 |}
                  (support_of caps_any_extent)) = Some (Some [0; 2]) /\
  option_map ci_pQueueFamilyIndices
    (swapchain_ci (800, 600) {| gfx_family := 1; present_family := 1 |}
                  (support_of caps_any_extent)) = Some None.
Proof.
  split.
  - destruct (swapchain_ci_sharing_mode (800, 600)
                {| gfx_family := 0; present_family := 2 |}
                (support_of caps_any_extent))
      as [ci [E [H _]]].
    + unfold resolved_family, INT_MAX; simpl; lia.
    + unfold resolved_family, INT_MAX; simpl; lia.
    + discriminate.
    + rewrite E. simpl. f_equal. apply H. discriminate.
  - destruct (swapchain_ci_sharing_mode (800, 600)
                {| gfx_family := 1; present_family := 1 |}
                (support_of caps_any_extent))
      as [ci [E [_ H]]].
    + unfold resolved_family, INT_MAX; simpl; lia.
    + unfold resolved_family, INT_MAX; simpl; lia.
    + discriminate.
    + rewrite E. simpl. f_equal. apply H. reflexivity.
Defined.

(** ** The order of strings *)

Lemma ascii_compare_refl (a : ascii) : Ascii.compare a a = Eq.
Proof. unfold Ascii.compare. apply N.compare_refl. Qed.

Lemma ascii_compare_lt_trans (a b c : ascii) :
  Ascii.compare a b = Lt -> Ascii.compare b c = Lt -> Ascii.compare a c = Lt.
Proof.
  unfold Ascii.compare. rewrite !N.compare_lt_iff. apply N.lt_trans.
Qed.

Lemma string_compare_refl (s : string) : String.compare s s = Eq.
Proof.
  induction s as [|a s IH]; simpl; [reflexivity|].
  now rewrite ascii_compare_refl.
Qed.

Lemma string_compare_lt_trans (a b c : string) :
  String.compare a b = Lt -> String.compare b c = Lt -> String.compare a c = Lt.
Proof.
  revert b c. induction a as [|x a IH]; intros [|y b] [|z c]; simpl;
    try discriminate; try reflexivity.
  destruct (Ascii.compare x y) eqn:Exy; try discriminate;
    destruct (Ascii.compare y z) eqn:Eyz; try discriminate; intros Hab Hbc.
  - apply Ascii.compare_eq_iff in Exy, Eyz. subst.
    rewrite ascii_compare_refl. eauto.
  - apply Ascii.compare_eq_iff in Exy. subst. now rewrite Eyz.
  - apply Ascii.compare_eq_iff in Eyz. subst. now rewrite Exy.
  - now rewrite (ascii_compare_lt_trans x y z).
Qed.

Lemma ltb_lt (a b : string) : String.ltb a b = true <-> String.compare a b = Lt.
Proof. unfold String.ltb. destruct (String.compare a b); split; congruence. Qed.

Lemma ltb_irrefl (a : string) : String.ltb a a = false.
Proof. unfold String.ltb. now rewrite string_compare_refl. Qed.

Lemma ltb_trans (a b c : string) :
  String.ltb a b = true -> String.ltb b c = true -> String.ltb a c = true.
Proof. rewrite !ltb_lt. apply string_compare_lt_trans. Qed.

Lemma ltb_asym (a b : string) : String.ltb a b = true -> String.ltb b a = false.
Proof.
  intros H. destruct (String.ltb b a) eqn:E; [|reflexivity].
  pose proof (ltb_trans a b a H E) as C. rewrite ltb_irrefl in C. discriminate.
Qed.

(** Two strings neither of which is less than the other are the same
    string, character for character. *)
Lemma ltb_connected (a b : string) :
  String.ltb a b = false -> String.ltb b a = false -> a = b.
Proof.
  unfold String.ltb. rewrite (String.compare_antisym b a).
  destruct (String.compare a b) eqn:E; simpl; try discriminate.
  intros _ _. now apply String.compare_eq_iff.
Qed.

Lemma string_le_refl (a : string) : string_le a a.
Proof. apply ltb_irrefl. Qed.

Lemma string_le_trans (a b c : string) :
  string_le a b -> string_le b c -> string_le a c.
Proof.
  unfold string_le. intros Hab Hbc.
  destruct (String.ltb c a) eqn:Hca; [|reflexivity].
  destruct (String.ltb a b) eqn:Hlt.
  - pose proof (ltb_trans c a b Hca Hlt). congruence.
  - assert (a = b) by now apply ltb_connected. subst. congruence.
Qed.

Lemma ltb_string_le (a b : string) : String.ltb a b = true -> string_le a b.
Proof. apply ltb_asym. Qed.

(** ** [std::sort] and [std::includes] *)

Lemma insert_sorted_count (x : string) (l : list string) (name : string) :
  count_occ string_dec (insert_sorted x l) name =
  count_occ string_dec (x :: l) name.
Proof.
  induction l as [|y l IH]; [reflexivity|].
  cbn [insert_sorted]. destruct (String.ltb y x); [|reflexivity].
  cbn [count_occ] in *.
  destruct (string_dec y name), (string_dec x name); lia.
Qed.

Lemma std_sort_count (l : list string) (name : string) :
  count_occ string_dec (std_sort l) name = count_occ string_dec l name.
Proof.
  induction l as [|x l IH]; [reflexivity|].
  unfold std_sort in *. cbn [fold_right]. rewrite insert_sorted_count.
  cbn [count_occ]. now rewrite IH.
Qed.

Lemma insert_sorted_Forall (P : string -> Prop) (x : string) (l : list string) :
  P x -> Forall P l -> Forall P (insert_sorted x l).
Proof.
  intros Hx Hl. induction Hl as [|y l Hy Hl IH]; simpl.
  - auto.
  - destruct (String.ltb y x); auto.
Qed.

Lemma insert_sorted_ascending (x : string) (l : list string) :
  ascending l -> ascending (insert_sorted x l).
Proof.
  unfold ascending. induction 1 as [|y l Hl IH Hy]; simpl.
  - constructor; constructor.
  - destruct (String.ltb y x) eqn:E.
    + constructor; [exact IH|].
      apply insert_sorted_Forall; [now apply ltb_string_le | exact Hy].
    + constructor; [now constructor|].
      constructor; [exact E|].
      eapply Forall_impl; [|exact Hy]. intros z Hz.
      now apply string_le_trans with y.
Qed.

Lemma std_sort_ascending (l : list string) : ascending (std_sort l).
Proof.
  induction l as [|x l IH]; [constructor|].
  now apply insert_sorted_ascending.
Qed.

Lemma count_occ_below (x : string) (l : list string) :
  Forall (string_le x) l ->
  forall y, String.ltb y x = true -> count_occ string_dec l y = 0%nat.
Proof.
  intros Hl y Hy. apply count_occ_not_In. intros Hin.
  rewrite Forall_forall in Hl. specialize (Hl y Hin). unfold string_le in Hl.
  congruence.
Qed.

(** On ascending ranges [std::includes] decides the sub-multiset relation. *)
Lemma std_includes_multiset (l1 l2 : list string) :
  ascending l1 -> ascending l2 ->
  (std_includes l1 l2 = true <-> multiset_subset l2 l1).
Proof.
  unfold ascending, multiset_subset. intros H1. revert l2.
  induction H1 as [|x l1 H1 IH Hx]; intros l2 H2.
  - destruct l2 as [|y l2]; simpl.
    + split; [intros _ name; lia | reflexivity].
    + split; [discriminate|]. intros H. specialize (H y). simpl in H.
      destruct (string_dec y y); [lia | congruence].
  - destruct l2 as [|y l2]; cbn [std_includes].
    + split; [intros _ name; simpl; lia | reflexivity].
    + inversion H2 as [|? ? H2' Hy]; subst.
      destruct (String.ltb y x) eqn:Eyx; [|destruct (String.ltb x y) eqn:Exy].
      * (* [y] is below all of the first range *)
        split; [discriminate|]. intros H. specialize (H y).
        cbn [count_occ] in H. destruct (string_dec y y); [|congruence].
        destruct (string_dec x y) as [->|_].
        { rewrite ltb_irrefl in Eyx. discriminate. }
        rewrite (count_occ_below x l1 Hx y Eyx) in H. lia.
      * (* [x] is below all of the second range *)
        rewrite (IH (y :: l2) H2).
        assert (Hx0 : count_occ string_dec (y :: l2) x = 0%nat).
        { apply (count_occ_below y); [|exact Exy].
          constructor; [apply string_le_refl | exact Hy]. }
        split; intros H name; specialize (H name).
        -- destruct (string_dec x name) as [E|E].
           ++ rewrite (count_occ_cons_eq string_dec l1 E). lia.
           ++ now rewrite (count_occ_cons_neq string_dec l1 E).
        -- destruct (string_dec x name) as [E|E].
           ++ subst name. rewrite Hx0. lia.
           ++ now rewrite (count_occ_cons_neq string_dec l1 E) in H.
      * (* the two heads are the same string *)
        assert (x = y) by now apply ltb_connected. subst y.
        rewrite (IH l2 H2').
        split; intros H name; specialize (H name); cbn [count_occ] in *;
          destruct (string_dec x name); lia.
Qed.

(** [checkDeviceExtensionSupport] holds exactly when the required names are a
    sub-multiset of the names of the extensions the device has. *)
Lemma checkDeviceExtensionSupport_multiset (device : VkPhysicalDevice) :
  checkDeviceExtensionSupport device = true <->
  multiset_subset device_extensions
    (map extensionName (device_extension_properties device)).
Proof.
  unfold checkDeviceExtensionSupport.
  rewrite std_includes_multiset by apply std_sort_ascending.
  unfold multiset_subset.
  split; intros H name; specialize (H name); now rewrite !std_sort_count in *.
Qed.

(** ** Device selector: the queue families *)

Lemma last_match_range (p : Z -> bool) (m : nat) :
  last_match p m = -1 \/ 0 <= last_match p m < Z.of_nat m.
Proof.
  induction m as [|k IH]; [now left|].
  cbn [last_match]. destruct (p (Z.of_nat k)); [right; lia|].
  destruct IH as [IH|IH]; [now left | right; lia].
Qed.

Lemma last_match_none (p : Z -> bool) (m : nat) :
  last_match p m = -1 <-> forall i, 0 <= i < Z.of_nat m -> p i = false.
Proof.
  induction m as [|k IH]; cbn [last_match].
  - split; [intros _ i Hi; lia | reflexivity].
  - destruct (p (Z.of_nat k)) eqn:E.
    + split; [lia|]. intros H. rewrite H in E by lia. discriminate.
    + rewrite IH. split; intros H i Hi.
      * destruct (Z.eq_dec i (Z.of_nat k)) as [->|Hne]; [exact E | apply H; lia].
      * apply H. lia.
Qed.

Lemma last_match_some (p : Z -> bool) (m : nat) :
  last_match p m <> -1 ->
  p (last_match p m) = true /\
  forall i, last_match p m < i < Z.of_nat m -> p i = false.
Proof.
  induction m as [|k IH]; cbn [last_match]; [congruence|].
  destruct (p (Z.of_nat k)) eqn:E.
  - intros _. split; [exact E | intros i Hi; lia].
  - intros H. destruct (IH H) as [Hp Hlater]. split; [exact Hp|].
    intros i Hi. destruct (Z.eq_dec i (Z.of_nat k)) as [->|Hne];
      [exact E | apply Hlater; lia].
Qed.

Lemma graphics_at_app (device : VkPhysicalDevice)
    (pre rest : list VkQueueFamilyProperties) (q_family : VkQueueFamilyProperties) :
  queue_family_properties device = pre ++ q_family :: rest ->
  graphics_at device (Z.of_nat (List.length pre)) = has_graphics q_family.
Proof.
  intros E. unfold graphics_at. rewrite Nat2Z.id, E.
  rewrite nth_error_app2 by lia. now rewrite Nat.sub_diag.
Qed.

(** The loop of [findQueueFamilies], entered at family [length pre] with the
    last matches among the families before it, none of which completed the
    mapping. *)
Lemma findQueueFamilies_loop_last_matches (device : VkPhysicalDevice)
    (rest pre : list VkQueueFamilyProperties) :
  queue_family_properties device = pre ++ rest ->
  isComplete (last_matches device (List.length pre)) = false ->
  exists m : nat,
    (m <= List.length (queue_family_properties device))%nat /\
    findQueueFamilies_loop device rest (Z.of_nat (List.length pre))
      (last_matches device (List.length pre)) = last_matches device m /\
    (if isComplete (last_matches device m)
     then (1 <= m)%nat /\ isComplete (last_matches device (m - 1)) = false
     else m = List.length (queue_family_properties device)).
Proof.
  revert pre. induction rest as [|q_family rest IH]; intros pre E Hpre.
  - exists (List.length pre). rewrite E, app_nil_r. cbn [findQueueFamilies_loop].
    rewrite Hpre. auto.
  - cbn [findQueueFamilies_loop].
    set (i := List.length pre) in *.
    assert (Hstep :
      (let indices :=
         if has_graphics q_family
         then {| gfx_family := Z.of_nat i;
                 present_family := present_family (last_matches device i) |}
         else last_matches device i in
       if surface_support device (Z.of_nat i)
       then {| gfx_family := gfx_family indices; present_family := Z.of_nat i |}
       else indices) = last_matches device (S i)).
    { unfold last_matches. cbn [last_match].
      pose proof (graphics_at_app device pre rest q_family E) as Hg.
      fold i in Hg. rewrite Hg.
      destruct (has_graphics q_family), (surface_support device (Z.of_nat i));
        reflexivity. }
    cbv zeta in Hstep. rewrite Hstep.
    destruct (isComplete (last_matches device (S i))) eqn:Hc.
    + exists (S i). rewrite Hc. repeat split.
      * rewrite E, length_app. cbn [List.length]. subst i. lia.
      * lia.
      * replace (S i - 1)%nat with i by lia. exact Hpre.
    + specialize (IH (pre ++ [q_family])).
      rewrite length_app in IH. cbn [List.length] in IH.
      replace (List.length pre + 1)%nat with (S i) in IH by (subst i; lia).
      replace (Z.of_nat i + 1) with (Z.of_nat (S i)) by lia.
      apply IH; [|exact Hc]. now rewrite <- app_assoc.
Qed.

(** The scan of [findQueueFamilies] from the first family on. *)
Lemma findQueueFamilies_scan (device : VkPhysicalDevice) :
  exists m : nat,
    (m <= List.length (queue_family_properties device))%nat /\
    findQueueFamilies device = last_matches device m /\
    (if isComplete (findQueueFamilies device)
     then (1 <= m)%nat /\ isComplete (last_matches device (m - 1)) = false
     else m = List.length (queue_family_properties device)).
Proof.
  destruct (findQueueFamilies_loop_last_matches device
              (queue_family_properties device) [] eq_refl eq_refl)
    as [m [Hm [E Hstop]]].
  exists m. unfold findQueueFamilies.
  change (findQueueFamilies_loop device (queue_family_properties device) 0
            {| gfx_family := -1; present_family := -1 |})
    with (findQueueFamilies_loop device (queue_family_properties device)
            (Z.of_nat (List.length (@nil VkQueueFamilyProperties)))
            (last_matches device (List.length (@nil VkQueueFamilyProperties)))).
  rewrite E. auto.
Qed.

(** C5. [findQueueFamilies] scans the families in index order and returns
    the mapping after some number [m] of them: for graphics and for
    presentation the last matching index among the first [m] families (later
    matches have replaced earlier ones, [-1] when there was none).  The scan
    stops at the first family that completes the mapping: when the result is
    complete, the mapping after [m - 1] families was not; when it is not
    complete, every family was scanned.  The last conjunct is one turn of the
    loop: a match overwrites the recorded index with the current one, and the
    loop is left as soon as both are resolved. *)
Theorem findQueueFamilies_last_match (device : VkPhysicalDevice) :
  (exists m : nat,
     (m <= List.length (queue_family_properties device))%nat /\
     findQueueFamilies device = last_matches device m /\
     (if isComplete (findQueueFamilies device)
      then (1 <= m)%nat /\ isComplete (last_matches device (m - 1)) = false
      else m = List.length (queue_family_properties device))) /\
  (forall q_family rest i indices,
     findQueueFamilies_loop device (q_family :: rest) i indices =
     let overwritten :=
       {| gfx_family := if has_graphics q_family then i else gfx_family indices;
          present_family :=
            if surface_support device i then i else present_family indices |} in
     if isComplete overwritten then overwritten
     else findQueueFamilies_loop device rest (i + 1) overwritten).
Proof.
  split.
  - apply findQueueFamilies_scan.
  - intros q_family rest i [g p].
    cbn [findQueueFamilies_loop gfx_family present_family].
    destruct (has_graphics q_family), (surface_support device i); reflexivity.
Qed.

(** The mapping is complete exactly when the device has a family with the
    graphics bit and a family that can present to the surface. *)
Lemma isComplete_findQueueFamilies (device : VkPhysicalDevice) :
  isComplete (findQueueFamilies device) = true <->
  (exists i, 0 <= i < Z.of_nat (List.length (queue_family_properties device)) /\
             graphics_at device i = true) /\
  (exists j, 0 <= j < Z.of_nat (List.length (queue_family_properties device)) /\
             surface_support device j = true).
Proof.
  destruct (findQueueFamilies_scan device) as [m [Hm [E Hstop]]].
  split.
  - intros Hc. rewrite E in Hc. unfold isComplete, last_matches in Hc.
    cbn [gfx_family present_family] in Hc.
    apply andb_true_iff in Hc. destruct Hc as [Hg Hp].
    apply negb_true_iff, Z.eqb_neq in Hg, Hp.
    split.
    + exists (last_match (graphics_at device) m).
      destruct (last_match_range (graphics_at device) m); [congruence|].
      split; [lia | now apply last_match_some].
    + exists (last_match (surface_support device) m).
      destruct (last_match_range (surface_support device) m); [congruence|].
      split; [lia | now apply last_match_some].
  - intros [[i [Hi Hgi]] [j [Hj Hpj]]].
    destruct (isComplete (findQueueFamilies device)) eqn:Hc; [reflexivity|].
    subst m. rewrite E in Hc. unfold isComplete, last_matches in Hc.
    cbn [gfx_family present_family] in Hc.
    apply andb_false_iff in Hc. destruct Hc as [Hc|Hc];
      apply negb_false_iff, Z.eqb_eq in Hc;
      rewrite last_match_none in Hc.
    + rewrite (Hc i Hi) in Hgi. discriminate.
    + rewrite (Hc j Hj) in Hpj. discriminate.
Qed.

(** The indices of a complete mapping are resolved. *)
Lemma findQueueFamilies_resolved (device : VkPhysicalDevice) :
  Z.of_nat (List.length (queue_family_properties device)) <= INT_MAX ->
  isComplete (findQueueFamilies device) = true ->
  resolved_family (gfx_family (findQueueFamilies device)) /\
  resolved_family (present_family (findQueueFamilies device)).
Proof.
  intros Hn Hc.
  destruct (findQueueFamilies_scan device) as [m [Hm [E _]]].
  rewrite E in *. unfold isComplete, last_matches in *.
  cbn [gfx_family present_family] in *.
  apply andb_true_iff in Hc. destruct Hc as [Hg Hp].
  apply negb_true_iff, Z.eqb_neq in Hg, Hp.
  unfold resolved_family.
  destruct (last_match_range (graphics_at device) m); [congruence|].
  destruct (last_match_range (surface_support device) m); [congruence|].
  lia.
Qed.

Example findQueueFamilies_three_families :
  findQueueFamilies device_three_families = {| gfx_family := 1; present_family := 1 |}.
Proof. reflexivity. Qed.

Example findQueueFamilies_late_present :
  findQueueFamilies device_late_present = {| gfx_family := 1; present_family := 2 |}.
Proof. reflexivity. Qed.

Example findQueueFamilies_present_first :
  findQueueFamilies device_present_first = {| gfx_family := 1; present_family := 1 |}.
Proof. reflexivity. Qed.

Example findQueueFamilies_compute_only :
  findQueueFamilies device_compute_only = {| gfx_family := -1; present_family := 0 |}.
Proof. reflexivity. Qed.

Lemma findQueueFamilies_last_match_witness :
  exists m : nat,
    (m <= 4)%nat /\
    findQueueFamilies device_late_present = last_matches device_late_present m /\
    (if isComplete (findQueueFamilies device_late_present)
     then (1 <= m)%nat /\ isComplete (last_matches device_late_present (m - 1)) = false
     else m = 4%nat).
Proof. exact (proj1 (findQueueFamilies_last_match device_late_present)). Defined.

(** ** Device selector: the choice *)

Lemma is_empty_vector_false {A : Type} (v : list A) :
  is_empty_vector v = false <-> v <> [].
Proof. destruct v; simpl; split; congruence. Qed.

(** [isDeviceSuitable] always answers; it answers [true] on the suitable
    devices, after caching, and [false] on the others, touching nothing. *)
Lemma isDeviceSuitable_spec (device : VkPhysicalDevice) (s : State) :
  (suitable device /\
   isDeviceSuitable device s = Some (true, (cache device (fst s), snd s))) \/
  (~ suitable device /\ isDeviceSuitable device s = Some (false, s)).
Proof.
  unfold isDeviceSuitable, suitable.
  destruct (isComplete (findQueueFamilies device)) eqn:Hc; cbn [negb];
    [|right; split; [intros [H _]; discriminate | reflexivity]].
  destruct (checkDeviceExtensionSupport device) eqn:He; cbn [negb].
  2:{ right. split; [|reflexivity]. intros [_ [H _]].
      apply checkDeviceExtensionSupport_multiset in H. congruence. }
  apply checkDeviceExtensionSupport_multiset in He.
  cbn [querySwapChainSupport formats present_modes].
  destruct (is_empty_vector (surface_formats device)) eqn:Hf; cbn [orb].
  { right. split; [|reflexivity]. intros [_ [_ [H _]]].
    apply is_empty_vector_false in H. congruence. }
  destruct (is_empty_vector (surface_present_modes device)) eqn:Hp.
  { right. split; [|reflexivity]. intros [_ [_ [_ H]]].
    apply is_empty_vector_false in H. congruence. }
  apply is_empty_vector_false in Hf, Hp.
  left. split; [auto|]. destruct s as [app log]. reflexivity.
Qed.

(** The range-for of [pickPhysicalDevice]: it stops at the first suitable
    device, or runs through a list that has none and changes nothing. *)
Lemma pickPhysicalDevice_loop_spec (devices : list VkPhysicalDevice) (s : State) :
  (exists before device after,
     devices = before ++ device :: after /\
     Forall (fun d => ~ suitable d) before /\
     suitable device /\
     pickPhysicalDevice_loop devices s =
     Some (tt, (set_physical_device_ (Some device) (cache device (fst s)), snd s))) \/
  (Forall (fun d => ~ suitable d) devices /\
   pickPhysicalDevice_loop devices s = Some (tt, s)).
Proof.
  induction devices as [|d devices IH].
  - right. split; [constructor | reflexivity].
  - assert (Hstep :
      pickPhysicalDevice_loop (d :: devices) s =
      match isDeviceSuitable d s with
      | Some (true, s') => assign (set_physical_device_ (Some d)) s'
      | Some (false, s') => pickPhysicalDevice_loop devices s'
      | None => None
      end).
    { cbn [pickPhysicalDevice_loop]. unfold bind.
      destruct (isDeviceSuitable d s) as [[[|] s']|]; reflexivity. }
    rewrite Hstep.
    destruct (isDeviceSuitable_spec d s) as [[Hs E]|[Hs E]]; rewrite E.
    + left. exists [], d, devices.
      split; [reflexivity|]. split; [constructor|]. split; [exact Hs|].
      reflexivity.
    + destruct IH as [[before [device [after [Hd [Hb [Hsd El]]]]]]|[Hall El]].
      * left. exists (d :: before), device, after. subst devices.
        split; [reflexivity|]. split; [now constructor|]. split; [exact Hsd|].
        exact El.
      * right. split; [now constructor | exact El].
Qed.

(** C1. [isDeviceSuitable] holds exactly of the devices that have resolved
    graphics and present families, whose extension names include the
    required names as a sub-multiset (string equality, case and all), and
    whose surface-format and present-mode lists are both non-empty; the
    families are resolved exactly when some family has the graphics bit and
    some family presents to the surface.  [pickPhysicalDevice] selects the
    first device of the enumeration that is suitable, and caches its mapping
    and its swapchain support: no device before it is suitable, and when the
    run ends in the [ASSERT] no device is. *)
Theorem pickPhysicalDevice_first_suitable (env : Env) (app : App) (log : list Call) :
  physical_device_ app = None ->
  (forall device s,
     exists (answer : bool) (s' : State),
       isDeviceSuitable device s = Some (answer, s') /\
       (answer = true <-> suitable device)) /\
  (forall device,
     isComplete (findQueueFamilies device) = true <->
     (exists i, 0 <= i < Z.of_nat (List.length (queue_family_properties device)) /\
                graphics_at device i = true) /\
     (exists j, 0 <= j < Z.of_nat (List.length (queue_family_properties device)) /\
                surface_support device j = true)) /\
  match pickPhysicalDevice env (app, log) with
  | Some (_, (app', log')) =>
      exists before device after,
        vkEnumeratePhysicalDevices_result env = before ++ device :: after /\
        Forall (fun d => ~ suitable d) before /\
        suitable device /\
        physical_device_ app' = Some device /\
        q_indices_ app' = findQueueFamilies device /\
        swapchain_support_ app' = querySwapChainSupport device /\
        log' = log
  | None => Forall (fun d => ~ suitable d) (vkEnumeratePhysicalDevices_result env)
  end.
Proof.
  intros Hnull. split; [|split].
  - intros device s.
    destruct (isDeviceSuitable_spec device s) as [[Hs E]|[Hs E]];
      rewrite E; do 2 eexists; (split; [reflexivity|]).
    + tauto.
    + split; [discriminate | tauto].
  - exact isComplete_findQueueFamilies.
  - unfold pickPhysicalDevice, bind, ASSERT, members.
    destruct (vkEnumeratePhysicalDevices_result env) as [|d devices] eqn:Hdevs.
    + simpl. constructor.
    + change (0 <? Z.of_nat (List.length (d :: devices))) with
        (0 <? Z.pos (Pos.of_succ_nat (List.length devices))).
      cbv beta iota delta [Z.ltb Z.compare].
      destruct (pickPhysicalDevice_loop_spec (d :: devices) (app, log))
        as [[before [device [after [Hd [Hb [Hsd El]]]]]]|[Hall El]];
        rewrite El; cbn [fst snd].
      * cbn [set_physical_device_ physical_device_].
        exists before, device, after.
        split; [exact Hd|]. split; [exact Hb|]. split; [exact Hsd|].
        repeat split.
      * rewrite Hnull. exact Hall.
Qed.

Example device_three_families_suitable : suitable device_three_families.
Proof.
  unfold suitable. split; [reflexivity|]. split.
  - apply checkDeviceExtensionSupport_multiset. reflexivity.
  - split; discriminate.
Qed.

Example device_wrong_case_unsuitable : ~ suitable device_wrong_case.
Proof.
  intros [_ [H _]]. apply checkDeviceExtensionSupport_multiset in H.
  discriminate H.
Qed.

Example pickPhysicalDevice_env_ok :
  option_map (fun r => physical_device_ (fst (snd r)))
             (pickPhysicalDevice env_ok (fresh_app, [])) =
  Some (Some device_late_present).
Proof. reflexivity. Qed.

Lemma pickPhysicalDevice_first_suitable_witness :
  match pickPhysicalDevice env_ok (fresh_app, []) with
  | Some (_, (app', log')) =>
      exists before device after,
        vkEnumeratePhysicalDevices_result env_ok = before ++ device :: after /\
        Forall (fun d => ~ suitable d) before /\
        suitable device /\
        physical_device_ app' = Some device /\
        q_indices_ app' = findQueueFamilies device /\
        swapchain_support_ app' = querySwapChainSupport device /\
        log' = []
  | None => Forall (fun d => ~ suitable d) (vkEnumeratePhysicalDevices_result env_ok)
  end.
Proof.
  exact (proj2 (proj2 (pickPhysicalDevice_first_suitable env_ok fresh_app []
                         eq_refl))).
Defined.

(** ** Instance bootstrap: the extensions *)

Lemma count_occ_snoc (l : list string) (x name : string) :
  count_occ string_dec (l ++ [x]) name =
  (count_occ string_dec l name + if string_dec x name then 1 else 0)%nat.
Proof. rewrite count_occ_app. simpl. destruct (string_dec x name); lia. Qed.

(** C8, as stated, fails: the window system may list the debug-utils
    extension itself, and nothing removes a second occurrence. *)
Lemma getRequiredExtensions_debug_utils_not_once :
  ~ (forall (build : Build) (env : Env) (exts : list string),
       getRequiredExtensions build env = Some exts ->
       count_occ string_dec exts VK_EXT_DEBUG_UTILS_EXTENSION_NAME =
       if DEBUG build then 1%nat else 0%nat).
Proof.
  intros H.
  specialize (H debug_build env_debug_utils_listed
                ["VK_KHR_surface"; "VK_EXT_debug_utils"; "VK_EXT_debug_utils"]%string
                eq_refl).
  vm_compute in H. discriminate H.
Qed.

(** C8, amended. For every extension list the window system provides,
    [getRequiredExtensions] keeps that list as a prefix of its result and
    appends the debug-utils extension once when diagnostics are enabled and
    never when they are disabled.  So for a window-system list that does not
    itself contain the debug-utils extension, the result contains it exactly
    once when diagnostics are enabled and not at all when they are
    disabled. *)
Theorem getRequiredExtensions_correct
    (build : Build) (env : Env) (window_system_exts : list string) :
  SDL_Vulkan_GetInstanceExtensions_result env = Some window_system_exts ->
  exists exts,
    getRequiredExtensions build env = Some exts /\
    (exists appended, exts = window_system_exts ++ appended) /\
    (forall name, In name window_system_exts -> In name exts) /\
    count_occ string_dec exts VK_EXT_DEBUG_UTILS_EXTENSION_NAME =
    (count_occ string_dec window_system_exts VK_EXT_DEBUG_UTILS_EXTENSION_NAME
     + if DEBUG build then 1 else 0)%nat /\
    (~ In VK_EXT_DEBUG_UTILS_EXTENSION_NAME window_system_exts ->
     (DEBUG build = true ->
      count_occ string_dec exts VK_EXT_DEBUG_UTILS_EXTENSION_NAME = 1%nat) /\
     (DEBUG build = false ->
      ~ In VK_EXT_DEBUG_UTILS_EXTENSION_NAME exts)).
Proof.
  intros Hsdl. unfold getRequiredExtensions, enable_validation_layers_.
  rewrite Hsdl. eexists. split; [reflexivity|].
  assert (Hcount :
    count_occ string_dec
      (let ext_names :=
         if APPLE build
         then window_system_exts ++ [VK_KHR_PORTABILITY_ENUMERATION_EXTENSION_NAME]
         else window_system_exts in
       if DEBUG build then ext_names ++ [VK_EXT_DEBUG_UTILS_EXTENSION_NAME]
       else ext_names)
      VK_EXT_DEBUG_UTILS_EXTENSION_NAME =
    (count_occ string_dec window_system_exts VK_EXT_DEBUG_UTILS_EXTENSION_NAME
     + if DEBUG build then 1 else 0)%nat).
  { cbv zeta. destruct (APPLE build), (DEBUG build);
      rewrite ?count_occ_snoc; simpl; lia. }
  cbv zeta in Hcount |- *.
  split; [|split; [|split; [exact Hcount|]]].
  - destruct (APPLE build), (DEBUG build); rewrite <- ?app_assoc; eexists;
      try reflexivity. symmetry. apply app_nil_r.
  - intros name Hin. destruct (APPLE build), (DEBUG build);
      rewrite ?in_app_iff; auto.
  - intros Hnin.
    rewrite (count_occ_not_In string_dec) in Hnin.
    rewrite Hnin in Hcount. split; intros Hd; rewrite Hd in Hcount |- *.
    + exact Hcount.
    + rewrite (count_occ_not_In string_dec). exact Hcount.
Qed.

Lemma getRequiredExtensions_correct_witness :
  getRequiredExtensions debug_build env_ok =
  Some ["VK_KHR_surface"; "VK_KHR_xcb_surface"; "VK_EXT_debug_utils"]%string /\
  getRequiredExtensions release_build env_ok =
  Some ["VK_KHR_surface"; "VK_KHR_xcb_surface"]%string /\
  exists exts,
    getRequiredExtensions debug_build env_ok = Some exts /\
    count_occ string_dec exts VK_EXT_DEBUG_UTILS_EXTENSION_NAME = 1%nat.
Proof.
  split; [reflexivity|]. split; [reflexivity|].
  destruct (getRequiredExtensions_correct debug_build env_ok
              ["VK_KHR_surface"; "VK_KHR_xcb_surface"]%string eq_refl)
    as [exts [E [_ [_ [_ H]]]]].
  exists exts. split; [exact E|].
  apply H; [|reflexivity].
  simpl. intros [C|[C|[]]]; discriminate C.
Defined.

(** ** The log of created and destroyed objects *)

Lemma filter_map_app {A B : Type} (f : A -> option B) (l1 l2 : list A) :
  filter_map f (l1 ++ l2) = filter_map f l1 ++ filter_map f l2.
Proof.
  induction l1 as [|a l1 IH]; simpl; [reflexivity|].
  destruct (f a); simpl; now rewrite IH.
Qed.

Lemma logs_ext {A : Type} (m : M A) (f g : State -> list Object) :
  (forall s, f s = g s) -> logs m f -> logs m g.
Proof.
  intros E H s a s' Hm. rewrite <- E. now apply (H s a s').
Qed.

Lemma logs_bind {A B : Type} (m : M A) (k : A -> M B)
    (objs : list Object) (f : State -> list Object) :
  logs m (fun _ => objs) ->
  (forall a, logs (k a) f) ->
  logs (bind m k) (fun s' => objs ++ f s').
Proof.
  intros Hm Hk s b s'. unfold bind.
  destruct (m s) as [[a s1]|] eqn:E; [|discriminate].
  intros Ek. destruct (Hm s a s1 E) as [Hc1 Hd1].
  destruct (Hk a s1 b s' Ek) as [Hc2 Hd2].
  split; [|congruence]. rewrite Hc2, Hc1. now rewrite app_assoc.
Qed.

Lemma logs_silent {A : Type} (m : M A) :
  (forall s a s', m s = Some (a, s') -> snd s' = snd s) ->
  logs m (fun _ => []).
Proof.
  intros H s a s' Hm. rewrite (H s a s' Hm), app_nil_r. auto.
Qed.

Lemma logs_ret {A : Type} (a : A) : logs (ret a) (fun _ => []).
Proof. apply logs_silent. intros s b s' H. now inversion H. Qed.

Lemma logs_ASSERT (cond : bool) : logs (ASSERT cond) (fun _ => []).
Proof.
  apply logs_silent. intros s b s' H. unfold ASSERT in H.
  destruct cond; now inversion H.
Qed.

Lemma logs_lift {A : Type} (o : option A) : logs (lift o) (fun _ => []).
Proof.
  apply logs_silent. intros s b s' H. unfold lift in H.
  destruct o; now inversion H.
Qed.

Lemma logs_members : logs members (fun _ => []).
Proof. apply logs_silent. intros s b s' H. now inversion H. Qed.

Lemma logs_assign (f : App -> App) : logs (assign f) (fun _ => []).
Proof. apply logs_silent. intros s b s' H. now inversion H. Qed.

Lemma logs_create (c : Call) (o : Object) :
  created c = Some o -> destroyed c = None -> logs (call c) (fun _ => [o]).
Proof.
  intros Hc Hd s a s' H. inversion H; subst; clear H. cbn [snd].
  unfold created_objects, destroyed_objects. rewrite !filter_map_app.
  simpl. rewrite Hc, Hd. now rewrite app_nil_r.
Qed.

(** Straight-line member functions: split at each bind, close each step. *)
Ltac logs_steps :=
  repeat first
    [ apply logs_ret | apply logs_ASSERT | apply logs_lift | apply logs_members
    | apply logs_assign
    | apply logs_create; reflexivity
    | eapply logs_bind; [|intros ?] ].

Lemma initWindow_logs (env : Env) :
  logs (initWindow env) (fun _ => [WindowingSubsystem; Window]).
Proof.
  eapply logs_ext; [|unfold initWindow; logs_steps]. reflexivity.
Qed.

Lemma createInstance_logs (build : Build) (env : Env) :
  logs (createInstance build env) (fun _ => [Instance]).
Proof.
  eapply logs_ext;
    [|unfold createInstance, printSupportedExtensions, VKASSERT; logs_steps].
  reflexivity.
Qed.

Lemma setupDebugMessenger_logs (env : Env) :
  logs (setupDebugMessenger env) (fun _ => [DebugMessenger]).
Proof.
  eapply logs_ext; [|unfold setupDebugMessenger, VKASSERT; logs_steps].
  reflexivity.
Qed.

Lemma createSurface_logs (env : Env) :
  logs (createSurface env) (fun _ => [Surface]).
Proof.
  eapply logs_ext; [|unfold createSurface; logs_steps]. reflexivity.
Qed.

Lemma pickPhysicalDevice_logs (env : Env) :
  logs (pickPhysicalDevice env) (fun _ => []).
Proof.
  apply logs_silent. intros s a s'. unfold pickPhysicalDevice, bind, ASSERT, members.
  destruct (0 <? _); [|discriminate].
  destruct (pickPhysicalDevice_loop_spec (vkEnumeratePhysicalDevices_result env) s)
    as [[before [device [after [_ [_ [_ El]]]]]]|[_ El]]; rewrite El; cbn [fst snd].
  - cbn [set_physical_device_ physical_device_]. intros H. now inversion H.
  - destruct (physical_device_ (fst s)); [|discriminate].
    intros H. now inversion H.
Qed.

Lemma createLogicalDevice_logs (build : Build) (env : Env) :
  logs (createLogicalDevice build env) (fun _ => [LogicalDevice]).
Proof.
  eapply logs_ext; [|unfold createLogicalDevice, VKASSERT; logs_steps].
  reflexivity.
Qed.

Lemma createSwapChain_logs (env : Env) :
  logs (createSwapChain env) (fun _ => [Swapchain]).
Proof.
  eapply logs_ext; [|unfold createSwapChain, VKASSERT; logs_steps].
  reflexivity.
Qed.

Lemma length_assign_at {A : Type} (i : nat) (x : A) (v : list A) :
  List.length (assign_at i x v) = List.length v.
Proof.
  revert i. induction v as [|y v IH]; intros [|i]; simpl; auto.
Qed.

Lemma firstn_assign_at {A : Type} (i : nat) (x : A) (v : list A) :
  (i < List.length v)%nat ->
  firstn (S i) (assign_at i x v) = firstn i v ++ [x].
Proof.
  revert i. induction v as [|y v IH]; intros i Hi; simpl in Hi; [lia|].
  destruct i as [|i]; [reflexivity|].
  cbn [assign_at]. rewrite !firstn_cons. cbn [app]. f_equal.
  apply IH. lia.
Qed.

Lemma length_resize {A : Type} (n : nat) (d : A) (v : list A) :
  List.length (resize n d v) = n.
Proof.
  unfold resize. rewrite length_app, length_firstn, repeat_length. lia.
Qed.

(** The loop of [createImageViews] from index [i] on: it overwrites the
    elements from [i] on with the handles the runtime wrote, and logs their
    creation in index order. *)
Lemma createImageViews_loop_spec (env : Env) (images : list VkImage) :
  forall (i : nat) (s : State) (a : unit) (s' : State),
    List.length (swapchain_views_ (fst s)) = (i + List.length images)%nat ->
    createImageViews_loop env images i s = Some (a, s') ->
    exists new_views,
      swapchain_views_ (fst s') = firstn i (swapchain_views_ (fst s)) ++ new_views /\
      created_objects (snd s') = created_objects (snd s) ++ map ImageView new_views /\
      destroyed_objects (snd s') = destroyed_objects (snd s).
Proof.
  induction images as [|image_i rest IH]; intros i s a s' Hlen Hrun.
  - inversion Hrun; subst. exists []. cbn [List.length] in Hlen.
    rewrite !app_nil_r. rewrite firstn_all2 by lia. auto.
  - cbn [createImageViews_loop] in Hrun. unfold bind at 1 in Hrun.
    cbn [members] in Hrun.
    destruct (vkCreateImageView_result env i) as [view|]; [|discriminate].
    unfold bind, call, assign in Hrun. cbn [fst snd] in Hrun.
    cbn [List.length] in Hlen.
    apply IH in Hrun.
    2:{ cbn [fst set_swapchain_views_ swapchain_views_].
        rewrite length_assign_at. lia. }
    destruct Hrun as [new_views [Hv [Hc Hd]]].
    cbn [fst snd set_swapchain_views_ swapchain_views_] in Hv, Hc, Hd.
    exists (view :: new_views). split; [|split].
    + rewrite Hv, firstn_assign_at by lia. now rewrite <- app_assoc.
    + rewrite Hc. unfold created_objects. rewrite filter_map_app.
      cbn [filter_map created map]. now rewrite <- app_assoc.
    + rewrite Hd. unfold destroyed_objects. rewrite filter_map_app.
      cbn [filter_map destroyed]. now rewrite app_nil_r.
Qed.

Lemma createImageViews_logs (env : Env) :
  logs (createImageViews env)
       (fun s' => map ImageView (swapchain_views_ (fst s'))).
Proof.
  intros s a s' Hrun. unfold createImageViews, bind, members, assign in Hrun.
  cbn [fst snd] in Hrun.
  apply createImageViews_loop_spec in Hrun.
  - destruct Hrun as [new_views [Hv [Hc Hd]]].
    cbn [fst snd firstn app] in Hv, Hc, Hd. rewrite Hv. auto.
  - cbn [fst set_swapchain_views_ swapchain_views_]. apply length_resize.
Qed.

(** After [initWindow] and [initVulkan] the log holds the creation of the
    objects of [creation_order], in that order, and no destruction. *)
Lemma init_logs (build : Build) (env : Env) :
  logs (initWindow env ;; initVulkan build env)
       (fun s' => creation_order (DEBUG build) (swapchain_views_ (fst s'))).
Proof.
  eapply logs_ext.
  2:{ eapply logs_bind; [apply initWindow_logs | intros _].
      unfold initVulkan.
      eapply logs_bind; [apply createInstance_logs | intros _].
      eapply logs_bind with
        (objs := if DEBUG build then [DebugMessenger] else []); [|intros _].
      { unfold enable_validation_layers_. destruct (DEBUG build);
          [apply setupDebugMessenger_logs | apply logs_ret]. }
      eapply logs_bind; [apply createSurface_logs | intros _].
      eapply logs_bind; [apply pickPhysicalDevice_logs | intros _].
      eapply logs_bind; [apply createLogicalDevice_logs | intros _].
      eapply logs_bind; [apply createSwapChain_logs | intros _].
      apply createImageViews_logs. }
  intros s. unfold creation_order. destruct (DEBUG build); reflexivity.
Qed.

(** ** Teardown *)

Lemma for_each_call {A : Type} (f : A -> Call) (l : list A) (s : State) :
  for_each l (fun a => call (f a)) s = Some (tt, (fst s, snd s ++ map f l)).
Proof.
  revert s. induction l as [|a l IH]; intros [app log]; cbn [for_each map fst snd].
  - unfold ret. now rewrite app_nil_r.
  - unfold bind, call at 1. cbn [fst snd]. rewrite IH. cbn [fst snd].
    now rewrite <- app_assoc.
Qed.

(** What [cleanup] does to the members and to the log. *)
Lemma cleanup_spec (build : Build) (env : Env) (app : App) (log : list Call) :
  cleanup build env (app, log) =
  if DEBUG build && negb (vkDestroyDebugUtilsMessengerEXT_loaded env)
  then None
  else Some (tt, (app, log ++ teardown_order (DEBUG build) (swapchain_views_ app))).
Proof.
  unfold cleanup, enable_validation_layers_, teardown_order.
  unfold bind at 1. cbn [members fst].
  unfold bind at 1. rewrite for_each_call. cbn [fst snd].
  destruct (DEBUG build); [destruct (vkDestroyDebugUtilsMessengerEXT_loaded env)|];
    cbn [andb negb]; unfold bind, call, ASSERT, ret; cbn [fst snd];
    rewrite <- ?app_assoc; reflexivity.
Qed.

Lemma destroyed_objects_teardown_order (debug : bool) (views : list VkImageView) :
  destroyed_objects (teardown_order debug views) =
  map ImageView views ++
  [Swapchain; LogicalDevice] ++
  (if debug then [DebugMessenger] else []) ++
  [Surface; Instance; Window; WindowingSubsystem].
Proof.
  unfold destroyed_objects, teardown_order. rewrite filter_map_app.
  f_equal.
  - induction views as [|v views IH]; simpl; [reflexivity | now rewrite IH].
  - destruct debug; reflexivity.
Qed.

(** C9, as stated, fails: with diagnostics enabled the messenger is created
    before the surface and also destroyed before it, so the teardown is not
    the reverse of the creation order (here with a single image view, so the
    views play no part). *)
Lemma cleanup_not_reverse_creation :
  ~ (forall (build : Build) (env : Env) (app : App) (log log' : list Call),
       (initWindow env ;; initVulkan build env) (fresh_app, []) = Some (tt, (app, log)) ->
       cleanup build env (app, log) = Some (tt, (app, log')) ->
       destroyed_objects log' = rev (created_objects log)).
Proof.
  intros H.
  destruct ((initWindow env_one_image ;; initVulkan debug_build env_one_image)
              (fresh_app, [])) as [[[] [app log]]|] eqn:E;
    [|vm_compute in E; discriminate E].
  specialize (H debug_build env_one_image app log _ E
                (cleanup_spec debug_build env_one_image app log)).
  vm_compute in E. inversion E; subst; clear E.
  vm_compute in H. discriminate H.
Qed.

(** C9, amended. [cleanup] destroys the owned objects in one fixed order:
    every image view (in the order of their creation), then the swapchain,
    then the logical device, then the diagnostics messenger (only when
    diagnostics are enabled, which is when it was created), then the surface,
    then the instance, then the window and the windowing subsystem.  These
    are the objects [initWindow] and [initVulkan] created; the order is the
    reverse of their creation except among the image views and for the
    messenger, which is created before the surface and destroyed before it.
    With diagnostics disabled [cleanup] never calls the destroy function of
    the messenger and does not fail; with diagnostics enabled it fails only
    when that function cannot be loaded. *)
Theorem cleanup_order (build : Build) (env : Env) (app : App) (log : list Call) :
  cleanup build env (app, log) =
  (if DEBUG build && negb (vkDestroyDebugUtilsMessengerEXT_loaded env)
   then None
   else Some (tt, (app, log ++ teardown_order (DEBUG build) (swapchain_views_ app)))) /\
  (DEBUG build = false ->
   cleanup build env (app, log) =
   Some (tt, (app, log ++ teardown_order false (swapchain_views_ app))) /\
   ~ In vkDestroyDebugUtilsMessengerEXT (teardown_order false (swapchain_views_ app))) /\
  destroyed_objects (teardown_order (DEBUG build) (swapchain_views_ app)) =
  map ImageView (swapchain_views_ app) ++
  [Swapchain; LogicalDevice] ++
  (if DEBUG build then [DebugMessenger] else []) ++
  [Surface; Instance; Window; WindowingSubsystem] /\
  (forall app0 : App,
     (initWindow env ;; initVulkan build env) (app0, []) = Some (tt, (app, log)) ->
     created_objects log = creation_order (DEBUG build) (swapchain_views_ app) /\
     destroyed_objects log = []) /\
  (DEBUG build = false ->
   (List.length (swapchain_views_ app) <= 1)%nat ->
   destroyed_objects (teardown_order (DEBUG build) (swapchain_views_ app)) =
   rev (creation_order (DEBUG build) (swapchain_views_ app))).
Proof.
  split; [apply cleanup_spec|]. split; [|split; [|split]].
  - intros Hd. split.
    + rewrite cleanup_spec, Hd. reflexivity.
    + unfold teardown_order. rewrite !in_app_iff, in_map_iff.
      intros [[v [C _]]|[C|[C|C]]].
      * discriminate C.
      * simpl in C. destruct C as [C|[C|[]]]; discriminate C.
      * destruct C.
      * simpl in C. destruct C as [C|[C|[C|[C|[]]]]]; discriminate C.
  - apply destroyed_objects_teardown_order.
  - intros app0 Hinit.
    destruct (init_logs build env (app0, []) tt (app, log) Hinit) as [Hc Hdes].
    cbn [fst snd] in Hc, Hdes. auto.
  - intros Hd Hlen. rewrite destroyed_objects_teardown_order, Hd.
    unfold creation_order.
    destruct (swapchain_views_ app) as [|v [|v' views]]; cbn [List.length] in Hlen;
      [reflexivity | reflexivity | lia].
Qed.

Lemma cleanup_order_witness :
  cleanup release_build env_ok (app_three_views, []) =
  Some (tt, (app_three_views,
             [vkDestroyImageView 100; vkDestroyImageView 101; vkDestroyImageView 102;
              vkDestroySwapchainKHR; vkDestroyDevice;
              vkDestroySurfaceKHR; vkDestroyInstance; SDL_DestroyWindow; SDL_Quit])) /\
  ~ In vkDestroyDebugUtilsMessengerEXT
       (teardown_order false (swapchain_views_ app_three_views)).
Proof.
  exact (proj1 (proj2 (cleanup_order release_build env_ok app_three_views []))
               eq_refl).
Defined.

Example run_debug_build :
  option_map (fun r => (created_objects (snd (snd r)), destroyed_objects (snd (snd r))))
             (run debug_build env_ok (fresh_app, [])) =
  Some ([WindowingSubsystem; Window; Instance; DebugMessenger; Surface;
         LogicalDevice; Swapchain; ImageView 100; ImageView 101; ImageView 102],
        [ImageView 100; ImageView 101; ImageView 102; Swapchain; LogicalDevice;
         DebugMessenger; Surface; Instance; Window; WindowingSubsystem]).
Proof. reflexivity. Qed.

(** * Further properties of the code *)

(** ** Queue families *)

(** X1. The mapping [findQueueFamilies] returns is sound and as complete as
    the device allows: a recorded index is the index of a family of the
    device that has the capability, and an index is left at [-1] exactly when
    no family of the device has the capability. *)
Theorem findQueueFamilies_sound (device : VkPhysicalDevice) :
  (gfx_family (findQueueFamilies device) = -1 \/
   0 <= gfx_family (findQueueFamilies device)
     < Z.of_nat (List.length (queue_family_properties device)) /\
   graphics_at device (gfx_family (findQueueFamilies device)) = true) /\
  (present_family (findQueueFamilies device) = -1 \/
   0 <= present_family (findQueueFamilies device)
     < Z.of_nat (List.length (queue_family_properties device)) /\
   surface_support device (present_family (findQueueFamilies device)) = true) /\
  (gfx_family (findQueueFamilies device) = -1 <->
   forall i, 0 <= i < Z.of_nat (List.length (queue_family_properties device)) ->
             graphics_at device i = false) /\
  (present_family (findQueueFamilies device) = -1 <->
   forall i, 0 <= i < Z.of_nat (List.length (queue_family_properties device)) ->
             surface_support device i = false).
Proof.
  destruct (findQueueFamilies_scan device) as [m [Hm [E Hstop]]].
  assert (Hsound : forall p, last_match p m = -1 \/
            0 <= last_match p m
              < Z.of_nat (List.length (queue_family_properties device)) /\
            p (last_match p m) = true).
  { intros p. destruct (Z.eq_dec (last_match p m) (-1)) as [e|n]; [now left|].
    right. destruct (last_match_range p m) as [e|r]; [congruence|].
    split; [lia | now apply last_match_some]. }
  assert (Hnone : forall p,
            (isComplete (findQueueFamilies device) = true -> last_match p m <> -1) ->
            (last_match p m = -1 <->
             forall i, 0 <= i < Z.of_nat (List.length (queue_family_properties device)) ->
                       p i = false)).
  { intros p Hc. split.
    - intros Hp. destruct (isComplete (findQueueFamilies device)).
      + exfalso. now apply Hc.
      + subst m. now apply last_match_none.
    - intros Hall. apply last_match_none. intros i Hi. apply Hall. lia. }
  rewrite E in *. cbn [last_matches gfx_family present_family].
  split; [apply Hsound|]. split; [apply Hsound|].
  split; apply Hnone; intros Hc; unfold isComplete, last_matches in Hc;
    cbn [gfx_family present_family] in Hc; apply andb_true_iff in Hc;
    destruct Hc as [Hg Hp]; apply negb_true_iff, Z.eqb_neq in Hg, Hp; assumption.
Qed.

Lemma findQueueFamilies_sound_witness :
  gfx_family (findQueueFamilies device_compute_only) = -1 /\
  forall i, 0 <= i < 2 -> graphics_at device_compute_only i = false.
Proof.
  split; [reflexivity|].
  apply (proj1 (proj1 (proj2 (proj2 (findQueueFamilies_sound device_compute_only))))).
  reflexivity.
Defined.

(** ** Device extensions *)

Lemma multiset_subset_singleton (x : string) (l : list string) :
  multiset_subset [x] l <-> In x l.
Proof.
  unfold multiset_subset. split.
  - intros H. specialize (H x). cbn [count_occ] in H.
    destruct (string_dec x x); [|congruence].
    apply (count_occ_In string_dec). lia.
  - intros Hin name. cbn [count_occ].
    destruct (string_dec x name) as [<-|_]; [|lia].
    apply (count_occ_In string_dec) in Hin. lia.
Qed.

(** X2. [checkDeviceExtensionSupport] answers [true] exactly for the devices
    that list the extension VK_KHR_swapchain, however often and among
    whatever other names; so the answer does not depend on the order in which
    the runtime enumerates the extensions. *)
Theorem checkDeviceExtensionSupport_swapchain (device : VkPhysicalDevice) :
  (checkDeviceExtensionSupport device = true <->
   In VK_KHR_SWAPCHAIN_EXTENSION_NAME
      (map extensionName (device_extension_properties device))) /\
  (forall device' : VkPhysicalDevice,
     Permutation (device_extension_properties device)
                 (device_extension_properties device') ->
     checkDeviceExtensionSupport device' = checkDeviceExtensionSupport device).
Proof.
  assert (H : forall d, checkDeviceExtensionSupport d = true <->
                        In VK_KHR_SWAPCHAIN_EXTENSION_NAME
                           (map extensionName (device_extension_properties d))).
  { intros d. rewrite checkDeviceExtensionSupport_multiset.
    apply multiset_subset_singleton. }
  split; [apply H|].
  intros device' Hperm.
  assert (Hin : In VK_KHR_SWAPCHAIN_EXTENSION_NAME
                   (map extensionName (device_extension_properties device)) <->
                In VK_KHR_SWAPCHAIN_EXTENSION_NAME
                   (map extensionName (device_extension_properties device'))).
  { split; apply Permutation_in; apply Permutation_map;
      [exact Hperm | now apply Permutation_sym]. }
  destruct (checkDeviceExtensionSupport device) eqn:E1,
           (checkDeviceExtensionSupport device') eqn:E2; try reflexivity.
  - apply H, Hin, H in E1. congruence.
  - apply H, Hin, H in E2. congruence.
Qed.

Lemma checkDeviceExtensionSupport_swapchain_witness :
  checkDeviceExtensionSupport device_three_families = true /\
  checkDeviceExtensionSupport device_wrong_case = false.
Proof.
  split.
  - apply (proj2 (proj1 (checkDeviceExtensionSupport_swapchain device_three_families))).
    simpl. auto.
  - destruct (checkDeviceExtensionSupport device_wrong_case) eqn:E; [|reflexivity].
    apply (proj1 (proj1 (checkDeviceExtensionSupport_swapchain device_wrong_case))) in E.
    simpl in E. destruct E as [E|[E|[]]]; discriminate E.
Defined.

(** ** Swapchain negotiator: what is chosen is supported *)

Lemma chooseSwapSurfaceFormat_loop_member (all rest : list VkSurfaceFormatKHR)
    (f : VkSurfaceFormatKHR) :
  chooseSwapSurfaceFormat_loop all rest = Some f ->
  In f rest \/ nth_error all 0 = Some f.
Proof.
  induction rest as [|g rest IH]; simpl; [auto|].
  destruct (is_preferred_format g).
  - intros H. inversion H. auto.
  - intros H. destruct (IH H); auto.
Qed.

Lemma chooseSwapSurfaceFormat_In (formats : list VkSurfaceFormatKHR)
    (f : VkSurfaceFormatKHR) :
  chooseSwapSurfaceFormat formats = Some f -> In f formats.
Proof.
  unfold chooseSwapSurfaceFormat.
  destruct formats as [|first others]; [discriminate|].
  change (List.length (first :: others) =? 0)%nat with false. cbv iota.
  intros H. apply chooseSwapSurfaceFormat_loop_member in H.
  destruct H as [H|H]; [exact H|].
  inversion H. now left.
Qed.

(** X3. [chooseSwapSurfaceFormat] has no result exactly on the empty list,
    and a format it returns is one of the formats of the list. *)
Theorem chooseSwapSurfaceFormat_member (formats : list VkSurfaceFormatKHR) :
  (chooseSwapSurfaceFormat formats = None <-> formats = []) /\
  (forall f, chooseSwapSurfaceFormat formats = Some f -> In f formats).
Proof.
  split.
  - split.
    + intros H. destruct formats as [|first others]; [reflexivity|].
      destruct (chooseSwapSurfaceFormat_defined (first :: others)) as [f Hf];
        congruence.
    + intros ->. reflexivity.
  - intros f. apply chooseSwapSurfaceFormat_In.
Qed.

Lemma chooseSwapSurfaceFormat_member_witness :
  chooseSwapSurfaceFormat [format_unorm; format_rgba_srgb] = Some format_unorm /\
  In format_unorm [format_unorm; format_rgba_srgb].
Proof.
  split; [reflexivity|].
  apply (proj2 (chooseSwapSurfaceFormat_member [format_unorm; format_rgba_srgb])).
  reflexivity.
Defined.

(** X4. [chooseSwapPresentMode] returns mailbox or FIFO and nothing else; the
    mode it returns is one of the list exactly when the list holds mailbox or
    FIFO.  On a list with neither, the empty list included, it returns FIFO
    although the list does not offer it. *)
Theorem chooseSwapPresentMode_supported (present_modes : list VkPresentModeKHR) :
  (chooseSwapPresentMode present_modes = VK_PRESENT_MODE_MAILBOX_KHR \/
   chooseSwapPresentMode present_modes = VK_PRESENT_MODE_FIFO_KHR) /\
  (In (chooseSwapPresentMode present_modes) present_modes <->
   In VK_PRESENT_MODE_MAILBOX_KHR present_modes \/
   In VK_PRESENT_MODE_FIFO_KHR present_modes).
Proof.
  unfold chooseSwapPresentMode.
  destruct (std_find_found VK_PRESENT_MODE_MAILBOX_KHR present_modes) eqn:Hf.
  - apply std_find_found_iff in Hf. split; [now left | tauto].
  - split; [now right|]. split; [now right|].
    intros [H|H]; [|exact H].
    apply std_find_found_iff in H. congruence.
Qed.

Lemma chooseSwapPresentMode_supported_witness :
  chooseSwapPresentMode [0; 3] = VK_PRESENT_MODE_FIFO_KHR /\
  ~ In (chooseSwapPresentMode [0; 3]) [0; 3].
Proof.
  split; [reflexivity|]. intros Hin.
  apply (proj1 (proj2 (chooseSwapPresentMode_supported [0; 3]))) in Hin.
  simpl in Hin. destruct Hin as [[H|[H|[]]]|[H|[H|[]]]]; discriminate H.
Defined.

Lemma std_clamp_bounds (v lo hi : Z) :
  lo <= hi -> lo <= std_clamp v lo hi <= hi.
Proof.
  intros H. unfold std_clamp, std_min, std_max.
  destruct (Z.ltb_spec v lo);
    [destruct (Z.ltb_spec hi lo) | destruct (Z.ltb_spec hi v)]; lia.
Qed.

(** X5. When the width of the current extent is the special value and the
    image-extent bounds are in order, the extent [chooseSwapExtent] returns
    lies within the bounds on both axes, whatever the two [int]s of the
    drawable size are, negative ones included. *)
Theorem chooseSwapExtent_within_bounds
    (caps : VkSurfaceCapabilitiesKHR) (drawable : Z * Z) :
  width (currentExtent caps) = UINT32_MAX ->
  width (minImageExtent caps) <= width (maxImageExtent caps) ->
  height (minImageExtent caps) <= height (maxImageExtent caps) ->
  width (minImageExtent caps) <= width (chooseSwapExtent drawable caps)
    <= width (maxImageExtent caps) /\
  height (minImageExtent caps) <= height (chooseSwapExtent drawable caps)
    <= height (maxImageExtent caps).
Proof.
  intros Hw Hbw Hbh. unfold chooseSwapExtent. rewrite Hw, Z.eqb_refl.
  destruct drawable as [w h]. cbn [negb width height].
  split; now apply std_clamp_bounds.
Qed.

Lemma chooseSwapExtent_within_bounds_witness :
  chooseSwapExtent (-1, 5) caps_wide_bounds = extent 2048 16 /\
  16 <= width (chooseSwapExtent (-1, 5) caps_wide_bounds) <= 2048 /\
  16 <= height (chooseSwapExtent (-1, 5) caps_wide_bounds) <= 1024.
Proof.
  split; [reflexivity|].
  apply (chooseSwapExtent_within_bounds caps_wide_bounds (-1, 5)).
  - reflexivity.
  - simpl. lia.
  - simpl. lia.
Defined.

Lemma static_cast_uint32_t_range (z : Z) : is_uint32_t (static_cast_uint32_t z).
Proof.
  unfold is_uint32_t, static_cast_uint32_t, UINT32_MAX.
  pose proof (Z.mod_pos_bound z (4294967295 + 1)). lia.
Qed.

(** X6. The image count [createSwapChain] requests is a [uint32_t]; when
    [maxImageCount] is not zero it never exceeds [maxImageCount], and it is
    at least [minImageCount] when moreover [minImageCount <= maxImageCount]
    and [minImageCount] is not 0xFFFFFFFF.  At [minImageCount] 0xFFFFFFFF
    with no upper bound the sum wraps and zero images are requested. *)
Theorem requested_image_count_bounds (caps : VkSurfaceCapabilitiesKHR) :
  is_uint32_t (minImageCount caps) ->
  is_uint32_t (maxImageCount caps) ->
  is_uint32_t (requested_image_count caps) /\
  (maxImageCount caps <> 0 -> requested_image_count caps <= maxImageCount caps) /\
  (maxImageCount caps <> 0 ->
   minImageCount caps <= maxImageCount caps ->
   minImageCount caps <> UINT32_MAX ->
   minImageCount caps <= requested_image_count caps) /\
  (maxImageCount caps = 0 -> minImageCount caps = UINT32_MAX ->
   requested_image_count caps = 0).
Proof.
  intros [Hlo Hlo'] [Hhi Hhi'].
  pose proof (static_cast_uint32_t_range (minImageCount caps + 1)) as Hr.
  fold (uint32_add (minImageCount caps) 1) in Hr. unfold is_uint32_t in *.
  split; [|split; [|split]].
  - unfold requested_image_count. destruct (0 <? maxImageCount caps); [|exact Hr].
    rewrite std_min_spec. lia.
  - intros Hne. rewrite requested_image_count_bounded by lia. lia.
  - intros Hne Hle Hmax. rewrite requested_image_count_bounded by lia.
    rewrite uint32_add_no_wrap by lia. lia.
  - intros H0 Hmax. rewrite requested_image_count_unbounded by assumption.
    rewrite Hmax. reflexivity.
Qed.

Lemma requested_image_count_bounds_witness :
  3 <= requested_image_count caps_wide_bounds <= 8.
Proof.
  assert (H3 : is_uint32_t (minImageCount caps_wide_bounds))
    by (unfold is_uint32_t, UINT32_MAX; simpl; lia).
  assert (H8 : is_uint32_t (maxImageCount caps_wide_bounds))
    by (unfold is_uint32_t, UINT32_MAX; simpl; lia).
  destruct (requested_image_count_bounds caps_wide_bounds H3 H8)
    as [_ [Hle [Hge _]]].
  split.
  - apply Hge; simpl; unfold UINT32_MAX; lia.
  - apply Hle. discriminate.
Defined.

(** ** Instance bootstrap *)

Lemma getValidationLayers_result (build : Build) (env : Env) (layers : list string) :
  getValidationLayers build env = Some layers ->
  layers = if DEBUG build then validation_layers else [].
Proof.
  unfold getValidationLayers, enable_validation_layers_.
  destruct (DEBUG build); cbn [negb]; [|congruence].
  destruct (vkEnumerateInstanceLayerProperties_result env); [|discriminate].
  destruct (forallb _ validation_layers); congruence.
Qed.

(** X7. With diagnostics disabled [getValidationLayers] asks for no layer and
    cannot fail.  With diagnostics enabled it returns the fixed validation
    layers exactly when the enumeration of the layers succeeds and lists
    every one of them by name; in every other case the process ends. *)
Theorem getValidationLayers_spec (build : Build) (env : Env) :
  (DEBUG build = false -> getValidationLayers build env = Some []) /\
  (DEBUG build = true ->
   (getValidationLayers build env = Some validation_layers <->
    exists layer_props,
      vkEnumerateInstanceLayerProperties_result env = Some layer_props /\
      forall layer, In layer validation_layers -> In layer layer_props) /\
   (getValidationLayers build env = Some validation_layers \/
    getValidationLayers build env = None)).
Proof.
  unfold getValidationLayers, enable_validation_layers_.
  split; intros Hd; rewrite Hd; cbn [negb]; [reflexivity|].
  destruct (vkEnumerateInstanceLayerProperties_result env) as [layer_props|].
  2:{ split; [|now right]. split; [discriminate | intros [? [? _]]; discriminate]. }
  destruct (forallb _ validation_layers) eqn:Hall.
  - split; [|now left]. split; [|reflexivity]. intros _.
    exists layer_props. split; [reflexivity|]. intros layer Hin.
    rewrite forallb_forall in Hall. specialize (Hall layer Hin).
    apply existsb_exists in Hall. destruct Hall as [prop [Hp He]].
    apply String.eqb_eq in He. now subst.
  - split; [|now right]. split; [discriminate|].
    intros [props [E Hin]]. inversion E; subst props. exfalso.
    assert (Htrue : forallb
              (fun layer => existsb (fun layer_prop => (layer =? layer_prop)%string)
                                    layer_props) validation_layers = true).
    { apply forallb_forall. intros layer Hl. apply existsb_exists.
      exists layer. split; [now apply Hin | apply String.eqb_refl]. }
    congruence.
Qed.

Lemma getValidationLayers_spec_witness :
  getValidationLayers debug_build env_ok = Some validation_layers.
Proof.
  apply (proj1 (proj2 (getValidationLayers_spec debug_build env_ok) eq_refl)).
  exists ["VK_LAYER_KHRONOS_validation"%string]. split; [reflexivity|].
  intros layer Hin. exact Hin.
Defined.

(** X8. When [createInstance] succeeds it has logged exactly one call,
    [vkCreateInstance].  Its create info asks for
    the extensions of [getRequiredExtensions]; the portability flag is set
    exactly on Apple builds, where the portability extension is among the
    extensions; with diagnostics enabled the messenger create info is chained
    in, the debug-utils extension is among the extensions and the layers are
    the validation layers; with diagnostics disabled nothing is chained in
    and no layer is asked for. *)
Theorem createInstance_create_info (build : Build) (env : Env) (s s' : State) :
  createInstance build env s = Some (tt, s') ->
  exists ci,
    snd s' = snd s ++ [vkCreateInstance ci] /\
    getRequiredExtensions build env = Some (ppEnabledExtensionNames ci) /\
    Z.testbit (flags ci) 0 = APPLE build /\
    (APPLE build = true ->
     In VK_KHR_PORTABILITY_ENUMERATION_EXTENSION_NAME (ppEnabledExtensionNames ci)) /\
    (DEBUG build = true ->
     pNext ci = Some makeDbgMessengerCi /\
     In VK_EXT_DEBUG_UTILS_EXTENSION_NAME (ppEnabledExtensionNames ci) /\
     ppEnabledLayerNames ci = validation_layers) /\
    (DEBUG build = false ->
     pNext ci = None /\ ppEnabledLayerNames ci = []).
Proof.
  unfold createInstance, printSupportedExtensions, VKASSERT, ASSERT, bind, lift, call.
  destruct (vkEnumerateInstanceExtensionProperties_result env); [|discriminate].
  destruct (getRequiredExtensions build env) as [ext_names|] eqn:Hext; [|discriminate].
  destruct (getValidationLayers build env) as [layers|] eqn:Hlay; [|discriminate].
  cbn [fst snd].
  destruct (vkCreateInstance_result env); [|discriminate].
  intros H. inversion H; subst s'; clear H.
  eexists. split; [reflexivity|].
  cbn [ppEnabledExtensionNames ppEnabledLayerNames pNext flags].
  unfold enable_validation_layers_.
  split; [reflexivity|]. split; [destruct (APPLE build); reflexivity|].
  unfold getRequiredExtensions, enable_validation_layers_ in Hext.
  destruct (SDL_Vulkan_GetInstanceExtensions_result env) as [sdl|]; [|discriminate].
  inversion Hext; subst ext_names; clear Hext.
  split; [|split].
  - intros Ha. rewrite Ha. destruct (DEBUG build); rewrite ?in_app_iff; simpl; auto.
  - intros Hd. apply getValidationLayers_result in Hlay.
    rewrite Hd in Hlay |- *. split; [reflexivity|]. split; [|exact Hlay].
    rewrite in_app_iff. simpl. auto.
  - intros Hd. apply getValidationLayers_result in Hlay.
    rewrite Hd in Hlay |- *. split; [reflexivity | exact Hlay].
Qed.

Lemma createInstance_create_info_witness :
  exists ci s',
    createInstance debug_build env_ok (fresh_app, [SDL_Init; SDL_CreateWindow]) =
    Some (tt, s') /\
    snd s' = [SDL_Init; SDL_CreateWindow; vkCreateInstance ci] /\
    ppEnabledLayerNames ci = validation_layers.
Proof.
  destruct (createInstance_create_info debug_build env_ok
              (fresh_app, [SDL_Init; SDL_CreateWindow])
              (fresh_app,
               [SDL_Init; SDL_CreateWindow;
                vkCreateInstance
                  {| ppEnabledExtensionNames :=
                       ["VK_KHR_surface"; "VK_KHR_xcb_surface"; "VK_EXT_debug_utils"]%string;
                     ppEnabledLayerNames := validation_layers;
                     pNext := Some makeDbgMessengerCi;
                     flags := 0 |}])
              eq_refl)
    as [ci [E [_ [_ [_ [H _]]]]]].
  exists ci, (fresh_app, [SDL_Init; SDL_CreateWindow; vkCreateInstance ci]).
  split; [|split].
  - simpl in E. injection E as E. rewrite <- E. reflexivity.
  - reflexivity.
  - apply H. reflexivity.
Defined.

(** ** Logical device *)

(** X9. When [createLogicalDevice] succeeds on a mapping with resolved
    indices it has made exactly one call, [vkCreateDevice], asking for one
    queue per distinct family of the mapping: the family indices are listed
    without repetition, in ascending order, a single one when graphics and
    presentation share a family; the device extensions are the required ones
    and the layers are the validation layers exactly when diagnostics are
    enabled.  The device was created and both queue handles were not null. *)
Theorem createLogicalDevice_queues (build : Build) (env : Env) (s s' : State) :
  resolved_family (gfx_family (q_indices_ (fst s))) ->
  resolved_family (present_family (q_indices_ (fst s))) ->
  createLogicalDevice build env s = Some (tt, s') ->
  exists ci,
    s' = (fst s, snd s ++ [vkCreateDevice ci]) /\
    map queueFamilyIndex (pQueueCreateInfos ci) =
      (if gfx_family (q_indices_ (fst s)) =? present_family (q_indices_ (fst s))
       then [gfx_family (q_indices_ (fst s))]
       else [Z.min (gfx_family (q_indices_ (fst s)))
                   (present_family (q_indices_ (fst s)));
             Z.max (gfx_family (q_indices_ (fst s)))
                   (present_family (q_indices_ (fst s)))]) /\
    NoDup (map queueFamilyIndex (pQueueCreateInfos ci)) /\
    Forall (fun q_ci => queueCount q_ci = 1) (pQueueCreateInfos ci) /\
    device_ppEnabledExtensionNames ci = device_extensions /\
    device_ppEnabledLayerNames ci =
      (if DEBUG build then validation_layers else []) /\
    vkCreateDevice_result env = true /\
    vkGetDeviceQueue_result env (gfx_family (q_indices_ (fst s))) = true /\
    vkGetDeviceQueue_result env (present_family (q_indices_ (fst s))) = true.
Proof.
  intros Hg Hp.
  unfold createLogicalDevice, VKASSERT, ASSERT, bind, members, call.
  cbn [fst snd].
  set (g := gfx_family (q_indices_ (fst s))) in *.
  set (p := present_family (q_indices_ (fst s))) in *.
  destruct (vkCreateDevice_result env); [|discriminate].
  destruct (vkGetDeviceQueue_result env g); [|discriminate].
  destruct (vkGetDeviceQueue_result env p); [|discriminate].
  intros H. inversion H; subst s'; clear H.
  eexists. split; [reflexivity|].
  cbn [pQueueCreateInfos device_ppEnabledExtensionNames device_ppEnabledLayerNames].
  unfold enable_validation_layers_, std_set_of_two, resolved_family in *.
  assert (Hmap :
    map queueFamilyIndex
      (map (fun q_index =>
              {| queueFamilyIndex := static_cast_uint32_t q_index; queueCount := 1 |})
           (if g =? p then [g] else if g <? p then [g; p] else [p; g])) =
    (if g =? p then [g] else [Z.min g p; Z.max g p])).
  { rewrite map_map. cbn [queueFamilyIndex].
    destruct (g =? p); [|destruct (Z.ltb_spec g p)]; cbn [map];
      rewrite !static_cast_uint32_t_int by assumption; [reflexivity| |].
    - now rewrite Z.min_l, Z.max_r by lia.
    - now rewrite Z.min_r, Z.max_l by lia. }
  split; [exact Hmap|]. split; [|split; [|repeat split]].
  - rewrite Hmap. destruct (Z.eqb_spec g p).
    + constructor; [intros []| constructor].
    + constructor; [simpl; lia|]. constructor; [intros []| constructor].
  - destruct (g =? p); [|destruct (g <? p)]; repeat constructor.
Qed.

Lemma createLogicalDevice_queues_witness :
  exists ci,
    createLogicalDevice release_build env_ok
      (set_q_indices_ {| gfx_family := 2; present_family := 0 |} fresh_app, []) =
    Some (tt, (set_q_indices_ {| gfx_family := 2; present_family := 0 |} fresh_app,
               [vkCreateDevice ci])) /\
    map queueFamilyIndex (pQueueCreateInfos ci) = [0; 2].
Proof.
  destruct (createLogicalDevice release_build env_ok
              (set_q_indices_ {| gfx_family := 2; present_family := 0 |} fresh_app, []))
    as [[[] s']|] eqn:E; [|vm_compute in E; discriminate E].
  destruct (createLogicalDevice_queues release_build env_ok
              (set_q_indices_ {| gfx_family := 2; present_family := 0 |} fresh_app, [])
              s') as [ci [Es [Hq _]]].
  - unfold resolved_family, INT_MAX. simpl. lia.
  - unfold resolved_family, INT_MAX. simpl. lia.
  - exact E.
  - exists ci. subst s'. split; [reflexivity | exact Hq].
Defined.

(** ** Swapchain and image views *)

Lemma createSwapChain_run (env : Env) (s : State) (a : unit) (s' : State) :
  createSwapChain env s = Some (a, s') ->
  exists ci,
    swapchain_ci (SDL_GL_GetDrawableSize_result env)
                 (q_indices_ (fst s)) (swapchain_support_ (fst s)) = Some ci /\
    vkCreateSwapchainKHR_result env = true /\
    snd s' = snd s ++ [vkCreateSwapchainKHR ci] /\
    fst s' =
    set_swapchain_extent_ (ci_imageExtent ci)
      (set_swapchain_format_ (ci_imageFormat ci)
         (set_swapchain_images_ (vkGetSwapchainImagesKHR_result env) (fst s))).
Proof.
  unfold createSwapChain, VKASSERT, ASSERT, bind, members, lift, call, assign.
  cbn [fst snd].
  destruct (swapchain_ci _ _ _) as [ci|]; [|discriminate].
  destruct (vkCreateSwapchainKHR_result env); [|discriminate].
  intros H. inversion H; subst; clear H. exists ci. auto.
Qed.

(** X10. [createSwapChain] ends the process only when the cached format list
    is empty or [vkCreateSwapchainKHR] fails.  Otherwise it logs exactly one
    call, with the create info built from the cached mapping and support, and
    stores the images the runtime returns and the format and the extent of
    that create info; the selected device, the cached mapping and support
    and the image views are as before. *)
Theorem createSwapChain_spec (env : Env) (s : State) :
  match createSwapChain env s with
  | Some (_, s') =>
      exists ci,
        swapchain_ci (SDL_GL_GetDrawableSize_result env)
                     (q_indices_ (fst s)) (swapchain_support_ (fst s)) = Some ci /\
        vkCreateSwapchainKHR_result env = true /\
        snd s' = snd s ++ [vkCreateSwapchainKHR ci] /\
        swapchain_images_ (fst s') = vkGetSwapchainImagesKHR_result env /\
        swapchain_format_ (fst s') = ci_imageFormat ci /\
        swapchain_extent_ (fst s') = ci_imageExtent ci /\
        physical_device_ (fst s') = physical_device_ (fst s) /\
        q_indices_ (fst s') = q_indices_ (fst s) /\
        swapchain_support_ (fst s') = swapchain_support_ (fst s) /\
        swapchain_views_ (fst s') = swapchain_views_ (fst s)
  | None =>
      formats (swapchain_support_ (fst s)) = [] \/
      vkCreateSwapchainKHR_result env = false
  end.
Proof.
  destruct (createSwapChain env s) as [[a s']|] eqn:E.
  - apply createSwapChain_run in E. destruct E as [ci [Hci [Hr [Hlog Hf]]]].
    exists ci. rewrite Hf.
    cbn [set_swapchain_extent_ set_swapchain_format_ set_swapchain_images_
         swapchain_images_ swapchain_format_ swapchain_extent_ physical_device_
         q_indices_ swapchain_support_ swapchain_views_].
    repeat split; assumption.
  - unfold createSwapChain, VKASSERT, ASSERT, bind, members, lift, call, assign in E.
    cbn [fst snd] in E.
    destruct (swapchain_ci _ _ _) as [ci|] eqn:Hci.
    + destruct (vkCreateSwapchainKHR_result env); [discriminate | now right].
    + left. destruct (formats (swapchain_support_ (fst s))) as [|f fs] eqn:Hf;
        [reflexivity|].
      destruct (swapchain_ci_defined (SDL_GL_GetDrawableSize_result env)
                  (q_indices_ (fst s)) (swapchain_support_ (fst s))) as [f' [_ E']].
      * rewrite Hf. discriminate.
      * congruence.
Qed.

Lemma set_swapchain_views_same (app : App) :
  set_swapchain_views_ (swapchain_views_ app) app = app.
Proof. now destruct app. Qed.

(** The loop of [createImageViews] from index [i] on, with its failure. *)
Lemma createImageViews_loop_run (env : Env) (images : list VkImage) :
  forall (i : nat) (s : State),
    List.length (swapchain_views_ (fst s)) = (i + List.length images)%nat ->
    match createImageViews_loop env images i s with
    | Some (_, s') =>
        exists new_views,
          List.length new_views = List.length images /\
          (forall k, (k < List.length images)%nat ->
                     vkCreateImageView_result env (i + k) = nth_error new_views k) /\
          fst s' = set_swapchain_views_
                     (firstn i (swapchain_views_ (fst s)) ++ new_views) (fst s) /\
          snd s' = snd s ++ image_view_calls (swapchain_format_ (fst s)) images new_views
    | None =>
        exists k, (k < List.length images)%nat /\
                  vkCreateImageView_result env (i + k) = None
    end.
Proof.
  induction images as [|image_i rest IH]; intros i s Hlen.
  - cbn [createImageViews_loop ret]. exists []. cbn [List.length] in *.
    rewrite !app_nil_r. rewrite firstn_all2 by lia.
    rewrite set_swapchain_views_same.
    split; [reflexivity|]. split; [intros k Hk; lia | auto].
  - cbn [createImageViews_loop]. unfold bind at 1. cbn [members].
    cbn [List.length] in Hlen.
    destruct (vkCreateImageView_result env i) as [view|] eqn:Hview.
    2:{ exists 0%nat. cbn [List.length]. rewrite Nat.add_0_r. split; [lia | exact Hview]. }
    unfold bind, call, assign. cbn [fst snd].
    specialize (IH (S i)
      (set_swapchain_views_ (assign_at i view (swapchain_views_ (fst s))) (fst s),
       snd s ++ [vkCreateImageView
                   {| image := image_i; view_format := swapchain_format_ (fst s) |}
                   view])).
    cbn [fst snd set_swapchain_views_ swapchain_views_ swapchain_format_] in IH.
    rewrite length_assign_at in IH. specialize (IH ltac:(lia)).
    destruct (createImageViews_loop env rest (S i) _) as [[[] s']|].
    + destruct IH as [new_views [Hl [Hnth [Hf Hs]]]].
      exists (view :: new_views). cbn [List.length].
      split; [lia|]. split; [|split].
      * intros [|k] Hk; [now rewrite Nat.add_0_r|].
        cbn [nth_error]. rewrite <- Hnth by lia. f_equal. lia.
      * rewrite Hf, firstn_assign_at by lia. rewrite <- app_assoc.
        destruct (fst s). reflexivity.
      * rewrite Hs, <- app_assoc. reflexivity.
    + destruct IH as [k [Hk Hnone]]. exists (S k). cbn [List.length].
      split; [lia|]. rewrite <- Hnone. f_equal. lia.
Qed.

Lemma createImageViews_run (env : Env) (s : State) (a : unit) (s' : State) :
  createImageViews env s = Some (a, s') ->
  List.length (swapchain_views_ (fst s')) = List.length (swapchain_images_ (fst s)) /\
  fst s' = set_swapchain_views_ (swapchain_views_ (fst s')) (fst s).
Proof.
  unfold createImageViews, bind, members, assign. cbn [fst snd].
  pose proof (createImageViews_loop_run env (swapchain_images_ (fst s)) 0
    (set_swapchain_views_
       (resize (List.length (swapchain_images_ (fst s))) 0 (swapchain_views_ (fst s)))
       (fst s), snd s)) as H.
  cbn [fst snd set_swapchain_views_ swapchain_views_ firstn app Nat.add] in H.
  rewrite length_resize in H. specialize (H eq_refl).
  destruct (createImageViews_loop env _ 0 _) as [[[] s1]|]; [|discriminate].
  destruct H as [new_views [Hl [_ [Hf _]]]].
  intros E. inversion E; subst s1; clear E.
  rewrite Hf. cbn [set_swapchain_views_ swapchain_views_]. auto.
Qed.

(** X11. [createImageViews] ends the process exactly when the creation of
    one of the views fails.  Otherwise there is one view per swapchain image:
    view [k] is the handle the runtime wrote for image [k], whatever the
    vector of views held before; the views are created in image order, each
    for its image and in the format of the swapchain, and no other member
    changes. *)
Theorem createImageViews_spec (env : Env) (s : State) :
  match createImageViews env s with
  | Some (_, s') =>
      List.length (swapchain_views_ (fst s')) = List.length (swapchain_images_ (fst s)) /\
      (forall k, (k < List.length (swapchain_images_ (fst s)))%nat ->
                 nth_error (swapchain_views_ (fst s')) k =
                 vkCreateImageView_result env k) /\
      fst s' = set_swapchain_views_ (swapchain_views_ (fst s')) (fst s) /\
      snd s' = snd s ++ image_view_calls (swapchain_format_ (fst s))
                                         (swapchain_images_ (fst s))
                                         (swapchain_views_ (fst s'))
  | None =>
      exists k, (k < List.length (swapchain_images_ (fst s)))%nat /\
                vkCreateImageView_result env k = None
  end.
Proof.
  unfold createImageViews, bind, members, assign. cbn [fst snd].
  pose proof (createImageViews_loop_run env (swapchain_images_ (fst s)) 0
    (set_swapchain_views_
       (resize (List.length (swapchain_images_ (fst s))) 0 (swapchain_views_ (fst s)))
       (fst s), snd s)) as H.
  cbn [fst snd set_swapchain_views_ swapchain_views_ swapchain_format_ firstn app
       Nat.add] in H.
  rewrite length_resize in H. specialize (H eq_refl).
  destruct (createImageViews_loop env _ 0 _) as [[[] s']|].
  - destruct H as [new_views [Hl [Hnth [Hf Hs]]]].
    rewrite Hf. cbn [set_swapchain_views_ swapchain_views_].
    split; [exact Hl|]. split; [|split].
    + intros k Hk. symmetry. now apply Hnth.
    + reflexivity.
    + exact Hs.
  - exact H.
Qed.

(** ** The whole of [initVulkan] and of [run] *)

Lemma keeps_bind {A B : Type} (m : M A) (k : A -> M B) :
  keeps m -> (forall a, keeps (k a)) -> keeps (bind m k).
Proof.
  intros Hm Hk s b s'. unfold bind.
  destruct (m s) as [[a s1]|] eqn:E; [|discriminate].
  intros Ek. rewrite (Hk a s1 b s' Ek). exact (Hm s a s1 E).
Qed.

Lemma keeps_ret {A : Type} (a : A) : keeps (ret a).
Proof. intros s b s' H. now inversion H. Qed.

Lemma keeps_ASSERT (cond : bool) : keeps (ASSERT cond).
Proof. intros s b s' H. unfold ASSERT in H. destruct cond; now inversion H. Qed.

Lemma keeps_lift {A : Type} (o : option A) : keeps (lift o).
Proof. intros s b s' H. unfold lift in H. destruct o; now inversion H. Qed.

Lemma keeps_members : keeps members.
Proof. intros s b s' H. now inversion H. Qed.

Lemma keeps_call (c : Call) : keeps (call c).
Proof. intros s b s' H. now inversion H. Qed.

Ltac keeps_steps :=
  repeat first
    [ apply keeps_ret | apply keeps_ASSERT | apply keeps_lift | apply keeps_members
    | apply keeps_call
    | apply keeps_bind; [|intros ?] ].

Lemma initWindow_keeps (env : Env) : keeps (initWindow env).
Proof. unfold initWindow. keeps_steps. Qed.

Lemma createInstance_keeps (build : Build) (env : Env) :
  keeps (createInstance build env).
Proof. unfold createInstance, printSupportedExtensions, VKASSERT. keeps_steps. Qed.

Lemma setupDebugMessenger_keeps (env : Env) : keeps (setupDebugMessenger env).
Proof. unfold setupDebugMessenger, VKASSERT. keeps_steps. Qed.

Lemma createSurface_keeps (env : Env) : keeps (createSurface env).
Proof. unfold createSurface. keeps_steps. Qed.

Lemma createLogicalDevice_keeps (build : Build) (env : Env) :
  keeps (createLogicalDevice build env).
Proof. unfold createLogicalDevice, VKASSERT. keeps_steps. Qed.

(** [pickPhysicalDevice] from a null [physical_device_], when it returns. *)
Lemma pickPhysicalDevice_run (env : Env) (s : State) (a : unit) (s' : State) :
  physical_device_ (fst s) = None ->
  pickPhysicalDevice env s = Some (a, s') ->
  exists device,
    In device (vkEnumeratePhysicalDevices_result env) /\
    suitable device /\
    s' = (set_physical_device_ (Some device) (cache device (fst s)), snd s).
Proof.
  intros Hnull. unfold pickPhysicalDevice, bind, ASSERT, members.
  destruct (0 <? _); [|discriminate].
  destruct (pickPhysicalDevice_loop_spec (vkEnumeratePhysicalDevices_result env) s)
    as [[before [device [after [Hd [_ [Hs El]]]]]]|[_ El]]; rewrite El; cbn [fst snd].
  - cbn [set_physical_device_ physical_device_]. intros H. inversion H.
    exists device. split; [|auto]. rewrite Hd. apply in_elt.
  - rewrite Hnull. discriminate.
Qed.

(** X12. When [initVulkan] succeeds from a null [physical_device_], the
    members describe one consistent choice: the selected device is one of the
    enumerated devices and is suitable; the cached mapping and swapchain
    support are those of that device, and the mapping is complete; the
    swapchain format is the format of the surface format chosen from the
    formats of that device, the extent is the one chosen from its
    capabilities, the images are the ones the runtime returned, and there is
    exactly one image view per image. *)
Theorem initVulkan_post (build : Build) (env : Env) (s s' : State) :
  physical_device_ (fst s) = None ->
  initVulkan build env s = Some (tt, s') ->
  exists device f,
    In device (vkEnumeratePhysicalDevices_result env) /\
    suitable device /\
    physical_device_ (fst s') = Some device /\
    q_indices_ (fst s') = findQueueFamilies device /\
    isComplete (q_indices_ (fst s')) = true /\
    swapchain_support_ (fst s') = querySwapChainSupport device /\
    chooseSwapSurfaceFormat (surface_formats device) = Some f /\
    In f (surface_formats device) /\
    swapchain_format_ (fst s') = format f /\
    swapchain_extent_ (fst s') =
      chooseSwapExtent (SDL_GL_GetDrawableSize_result env) (surface_capabilities device) /\
    swapchain_images_ (fst s') = vkGetSwapchainImagesKHR_result env /\
    List.length (swapchain_views_ (fst s')) = List.length (swapchain_images_ (fst s')).
Proof.
  intros Hnull. unfold initVulkan, bind.
  destruct (createInstance build env s) as [[[] s1]|] eqn:E1; [|discriminate].
  apply createInstance_keeps in E1.
  destruct ((if enable_validation_layers_ build then setupDebugMessenger env else ret tt) s1)
    as [[[] s2]|] eqn:E2; [|discriminate].
  assert (K2 : fst s2 = fst s1).
  { destruct (enable_validation_layers_ build);
      [now apply setupDebugMessenger_keeps in E2 | now apply keeps_ret in E2]. }
  destruct (createSurface env s2) as [[[] s3]|] eqn:E3; [|discriminate].
  apply createSurface_keeps in E3.
  destruct (pickPhysicalDevice env s3) as [[[] s4]|] eqn:E4; [|discriminate].
  apply pickPhysicalDevice_run in E4; [|congruence].
  destruct E4 as [device [Hin [Hsuit E4]]].
  destruct (createLogicalDevice build env s4) as [[[] s5]|] eqn:E5; [|discriminate].
  apply createLogicalDevice_keeps in E5.
  destruct (createSwapChain env s5) as [[[] s6]|] eqn:E6; [|discriminate].
  apply createSwapChain_run in E6. destruct E6 as [ci [Hci [_ [_ H6]]]].
  destruct (createImageViews env s6) as [[[] s7]|] eqn:E7; [|discriminate].
  apply createImageViews_run in E7. destruct E7 as [Hlen H7].
  intros H. inversion H; subst s'; clear H.
  assert (A5 : fst s5 = set_physical_device_ (Some device) (cache device (fst s3))).
  { rewrite E5, E4. reflexivity. }
  rewrite A5 in Hci, H6.
  cbn [set_physical_device_ cache set_swapchain_support_ set_q_indices_
       q_indices_ swapchain_support_] in Hci.
  destruct (swapchain_ci_defined (SDL_GL_GetDrawableSize_result env)
              (findQueueFamilies device) (querySwapChainSupport device))
    as [f [Hf Hci']].
  { destruct Hsuit as [_ [_ [Hne _]]]. exact Hne. }
  rewrite Hci' in Hci. inversion Hci; subst ci; clear Hci.
  cbn [ci_imageFormat ci_imageExtent] in H6.
  exists device, f.
  rewrite H7, H6 in *.
  cbn [set_swapchain_views_ set_swapchain_extent_ set_swapchain_format_
       set_swapchain_images_ set_physical_device_ cache set_swapchain_support_
       set_q_indices_ physical_device_ q_indices_ swapchain_support_
       swapchain_format_ swapchain_extent_ swapchain_images_ swapchain_views_] in *.
  cbn [querySwapChainSupport formats caps] in Hf |- *.
  destruct Hsuit as [Hc Hrest].
  split; [exact Hin|]. split; [exact (conj Hc Hrest)|].
  split; [reflexivity|]. split; [reflexivity|]. split; [exact Hc|].
  split; [reflexivity|]. split; [exact Hf|].
  split; [now apply chooseSwapSurfaceFormat_In|].
  split; [reflexivity|]. split; [reflexivity|]. split; [reflexivity|].
  exact Hlen.
Qed.

Lemma initVulkan_post_witness :
  exists s' device,
    initVulkan debug_build env_ok (fresh_app, []) = Some (tt, s') /\
    physical_device_ (fst s') = Some device /\
    suitable device /\
    List.length (swapchain_views_ (fst s')) = List.length (swapchain_images_ (fst s')).
Proof.
  destruct (initVulkan debug_build env_ok (fresh_app, [])) as [[[] s']|] eqn:E;
    [|vm_compute in E; discriminate E].
  destruct (initVulkan_post debug_build env_ok (fresh_app, []) s' eq_refl E)
    as [device [f [_ [Hs [Hp [_ [_ [_ [_ [_ [_ [_ [_ Hl]]]]]]]]]]]]].
  exists s', device. auto.
Defined.

Lemma mainLoop_poll_run (events : list bool) (s : State) :
  mainLoop_poll events s = if existsb (fun close => close) events then Some (tt, s) else None.
Proof.
  induction events as [|close later IH]; [reflexivity|].
  cbn [mainLoop_poll existsb]. destruct close; [reflexivity | exact IH].
Qed.

Lemma created_objects_teardown_order (debug : bool) (views : list VkImageView) :
  created_objects (teardown_order debug views) = [].
Proof.
  unfold created_objects, teardown_order. rewrite filter_map_app.
  replace (filter_map created (map vkDestroyImageView views)) with (@nil Object)
    by (induction views; simpl; auto).
  destruct debug; reflexivity.
Qed.

Lemma creation_teardown_Permutation (debug : bool) (views : list VkImageView) :
  Permutation (creation_order debug views)
              (destroyed_objects (teardown_order debug views)).
Proof.
  rewrite destroyed_objects_teardown_order. unfold creation_order.
  destruct debug; cbn [app].
  - change (WindowingSubsystem :: Window :: Instance :: DebugMessenger :: Surface
              :: LogicalDevice :: Swapchain :: map ImageView views)
      with ([WindowingSubsystem; Window; Instance; DebugMessenger; Surface;
             LogicalDevice; Swapchain] ++ map ImageView views).
    etransitivity; [apply Permutation_app_comm|].
    apply Permutation_app_head.
    etransitivity; [apply Permutation_rev|]. cbn [rev app].
    do 2 apply perm_skip. apply perm_swap.
  - change (WindowingSubsystem :: Window :: Instance :: Surface
              :: LogicalDevice :: Swapchain :: map ImageView views)
      with ([WindowingSubsystem; Window; Instance; Surface;
             LogicalDevice; Swapchain] ++ map ImageView views).
    etransitivity; [apply Permutation_app_comm|].
    apply Permutation_app_head.
    apply Permutation_rev.
Qed.

(** The three parts of a [run] that returns. *)
Lemma run_inv (build : Build) (env : Env) (s : State) (a : unit) (s' : State) :
  run build env s = Some (a, s') ->
  exists s2,
    (initWindow env ;; initVulkan build env) s = Some (tt, s2) /\
    existsb (fun close => close) (SDL_PollEvent_results env) = true /\
    cleanup build env s2 = Some (a, s').
Proof.
  unfold run, bind, mainLoop.
  destruct (initWindow env s) as [[[] s1]|]; [|discriminate].
  destruct (initVulkan build env s1) as [[[] s2]|]; [|discriminate].
  rewrite mainLoop_poll_run.
  destruct (existsb _ (SDL_PollEvent_results env)); [|discriminate].
  intros H. exists s2. auto.
Qed.

(** X13. A [run] that returns has destroyed exactly what it created: the
    objects its log destroys are the objects its log creates, each as often
    (the two lists are permutations of each other), and the log splits into
    a part that only creates and the part of [cleanup], which only destroys,
    so nothing is created after the first destruction. *)
Theorem run_destroys_what_it_created
    (build : Build) (env : Env) (app0 app : App) (log : list Call) :
  run build env (app0, []) = Some (tt, (app, log)) ->
  Permutation (created_objects log) (destroyed_objects log) /\
  exists creating,
    log = creating ++ teardown_order (DEBUG build) (swapchain_views_ app) /\
    destroyed_objects creating = [] /\
    created_objects (teardown_order (DEBUG build) (swapchain_views_ app)) = [].
Proof.
  intros Hrun. apply run_inv in Hrun. destruct Hrun as [[app2 log2] [Hinit [_ Hclean]]].
  destruct (init_logs build env (app0, []) tt (app2, log2) Hinit) as [Hc Hd].
  cbn [fst snd List.app] in Hc, Hd.
  rewrite cleanup_spec in Hclean.
  destruct (DEBUG build && negb (vkDestroyDebugUtilsMessengerEXT_loaded env));
    [discriminate|].
  inversion Hclean; subst app log; clear Hclean.
  split.
  - unfold created_objects, destroyed_objects in *. rewrite !filter_map_app.
    fold (created_objects (teardown_order (DEBUG build) (swapchain_views_ app2))).
    rewrite created_objects_teardown_order, app_nil_r, Hd, Hc. cbn [List.app].
    apply creation_teardown_Permutation.
  - exists log2. split; [reflexivity|]. split; [exact Hd|].
    apply created_objects_teardown_order.
Qed.

Lemma run_destroys_what_it_created_witness :
  exists app log,
    run debug_build env_ok (fresh_app, []) = Some (tt, (app, log)) /\
    Permutation (created_objects log) (destroyed_objects log).
Proof.
  destruct (run debug_build env_ok (fresh_app, [])) as [[[] [app log]]|] eqn:E;
    [|vm_compute in E; discriminate E].
  exists app, log. split; [reflexivity|].
  exact (proj1 (run_destroys_what_it_created debug_build env_ok fresh_app app log E)).
Defined.

(** ** When [run] returns *)

Lemma succeeds_intro {A : Type} (m : M A) (s : State) (a : A) (s' : State) :
  m s = Some (a, s') -> succeeds m s.
Proof. intros H. now exists a, s'. Qed.

Lemma initWindow_succeeds (env : Env) (s : State) :
  succeeds (initWindow env) s <->
  SDL_Init_result env = 0 /\ SDL_CreateWindow_result env = true.
Proof.
  unfold succeeds, initWindow, ASSERT, bind, call. cbn [fst snd].
  destruct (Z.eqb_spec (SDL_Init_result env) 0) as [e|n];
    destruct (SDL_CreateWindow_result env); split;
    try (intros [a [s' H]]; discriminate H);
    try (intros [H1 H2]; congruence); eauto.
Qed.

Lemma getValidationLayers_succeeds (build : Build) (env : Env) :
  getValidationLayers build env <> None <->
  (DEBUG build = true ->
   exists layer_props,
     vkEnumerateInstanceLayerProperties_result env = Some layer_props /\
     forall layer, In layer validation_layers -> In layer layer_props).
Proof.
  unfold getValidationLayers, enable_validation_layers_.
  destruct (DEBUG build); cbn [negb]; [|split; [discriminate | congruence]].
  destruct (vkEnumerateInstanceLayerProperties_result env) as [layer_props|].
  2:{ split; [congruence|]. intros H. destruct (H eq_refl) as [? [? _]]. discriminate. }
  destruct (forallb _ validation_layers) eqn:Hall.
  - split; [|congruence]. intros _ _. exists layer_props. split; [reflexivity|].
    intros layer Hin. rewrite forallb_forall in Hall. specialize (Hall layer Hin).
    apply existsb_exists in Hall. destruct Hall as [prop [Hp He]].
    apply String.eqb_eq in He. now subst.
  - split; [congruence|]. intros H. destruct (H eq_refl) as [props [E Hin]].
    inversion E; subst props. exfalso.
    assert (Htrue : forallb
              (fun layer => existsb (fun layer_prop => (layer =? layer_prop)%string)
                                    layer_props) validation_layers = true).
    { apply forallb_forall. intros layer Hl. apply existsb_exists.
      exists layer. split; [now apply Hin | apply String.eqb_refl]. }
    congruence.
Qed.

Lemma createInstance_succeeds (build : Build) (env : Env) (s : State) :
  succeeds (createInstance build env) s <->
  vkEnumerateInstanceExtensionProperties_result env = true /\
  SDL_Vulkan_GetInstanceExtensions_result env <> None /\
  getValidationLayers build env <> None /\
  vkCreateInstance_result env = true.
Proof.
  unfold succeeds, createInstance, printSupportedExtensions, VKASSERT, ASSERT,
    bind, lift, call, getRequiredExtensions.
  cbn [fst snd].
  destruct (vkEnumerateInstanceExtensionProperties_result env);
    [|split; [intros [a [s' H]]; discriminate H | intros [H _]; discriminate H]].
  destruct (SDL_Vulkan_GetInstanceExtensions_result env);
    [|split; [intros [a [s' H]]; discriminate H | intros [_ [H _]]; congruence]].
  destruct (getValidationLayers build env);
    [|split; [intros [a [s' H]]; discriminate H | intros [_ [_ [H _]]]; congruence]].
  destruct (vkCreateInstance_result env);
    [|split; [intros [a [s' H]]; discriminate H | intros [_ [_ [_ H]]]; discriminate H]].
  split; [intros _; repeat split; congruence | eauto].
Qed.

Lemma setupDebugMessenger_succeeds (env : Env) (s : State) :
  succeeds (setupDebugMessenger env) s <->
  vkCreateDebugUtilsMessengerEXT_loaded env = true /\
  vkCreateDebugUtilsMessengerEXT_result env = true.
Proof.
  unfold succeeds, setupDebugMessenger, VKASSERT, ASSERT, bind, call. cbn [fst snd].
  destruct (vkCreateDebugUtilsMessengerEXT_loaded env);
    destruct (vkCreateDebugUtilsMessengerEXT_result env); split;
    try (intros [a [s' H]]; discriminate H);
    try (intros [H1 H2]; congruence); eauto.
Qed.

Lemma createSurface_succeeds (env : Env) (s : State) :
  succeeds (createSurface env) s <-> SDL_Vulkan_CreateSurface_result env = true.
Proof.
  unfold succeeds, createSurface, ASSERT, bind, call. cbn [fst snd].
  destruct (SDL_Vulkan_CreateSurface_result env); split;
    try (intros [a [s' H]]; discriminate H); try discriminate; eauto.
Qed.

Lemma first_suitable_unique (devices : list VkPhysicalDevice)
    (d1 d2 : VkPhysicalDevice) :
  first_suitable devices d1 -> first_suitable devices d2 -> d1 = d2.
Proof.
  intros [b1 [a1 [E1 [F1 S1]]]] [b2 [a2 [E2 [F2 S2]]]]. subst devices.
  revert b2 E2 F2. induction F1 as [|x b1 Hx F1 IH]; intros b2 E2 F2.
  - destruct F2 as [|y b2 Hy F2]; cbn [app] in E2.
    + now inversion E2.
    + inversion E2; subst. contradiction.
  - destruct F2 as [|y b2 Hy F2]; cbn [app] in E2.
    + inversion E2; subst. contradiction.
    + inversion E2; subst. now apply (IH b2).
Qed.

(** [pickPhysicalDevice] from a null [physical_device_] returns exactly when
    the enumeration has a first suitable device, and then with that device. *)
Lemma pickPhysicalDevice_first (env : Env) (s : State) :
  physical_device_ (fst s) = None ->
  (forall a s', pickPhysicalDevice env s = Some (a, s') ->
     exists device,
       first_suitable (vkEnumeratePhysicalDevices_result env) device /\
       s' = (set_physical_device_ (Some device) (cache device (fst s)), snd s)) /\
  (forall device,
     first_suitable (vkEnumeratePhysicalDevices_result env) device ->
     pickPhysicalDevice env s =
     Some (tt, (set_physical_device_ (Some device) (cache device (fst s)), snd s))).
Proof.
  intros Hnull.
  assert (Hrun : forall a s', pickPhysicalDevice env s = Some (a, s') ->
     exists device,
       first_suitable (vkEnumeratePhysicalDevices_result env) device /\
       s' = (set_physical_device_ (Some device) (cache device (fst s)), snd s)).
  { intros a s'. unfold pickPhysicalDevice, bind, ASSERT, members.
    destruct (0 <? _); [|discriminate].
    destruct (pickPhysicalDevice_loop_spec (vkEnumeratePhysicalDevices_result env) s)
      as [[before [device [after [Hd [Hb [Hs El]]]]]]|[_ El]]; rewrite El; cbn [fst snd].
    - cbn [set_physical_device_ physical_device_]. intros H. inversion H.
      exists device. split; [|reflexivity]. now exists before, after.
    - rewrite Hnull. discriminate. }
  split; [exact Hrun|].
  intros device Hfirst.
  destruct (pickPhysicalDevice env s) as [[[] s']|] eqn:E.
  - destruct (Hrun tt s' eq_refl) as [d [Hd Hs']].
    rewrite (first_suitable_unique _ _ _ Hfirst Hd). now subst s'.
  - exfalso. revert E. unfold pickPhysicalDevice, bind, ASSERT, members.
    destruct Hfirst as [before [after [Hdev [Hb Hs]]]].
    destruct (vkEnumeratePhysicalDevices_result env) as [|d0 ds] eqn:Hds.
    { destruct before; discriminate Hdev. }
    change (0 <? Z.of_nat (List.length (d0 :: ds))) with
      (0 <? Z.pos (Pos.of_succ_nat (List.length ds))).
    cbv beta iota delta [Z.ltb Z.compare].
    destruct (pickPhysicalDevice_loop_spec (d0 :: ds) s)
      as [[b' [d' [a' [_ [_ [_ El]]]]]]|[Hall El]]; rewrite El; cbn [fst snd].
    + cbn [set_physical_device_ physical_device_]. discriminate.
    + rewrite Forall_forall in Hall. exfalso.
      apply (Hall device); [|exact Hs]. rewrite Hdev. apply in_elt.
Qed.

Lemma createLogicalDevice_succeeds (build : Build) (env : Env) (s : State) :
  succeeds (createLogicalDevice build env) s <->
  vkCreateDevice_result env = true /\
  vkGetDeviceQueue_result env (gfx_family (q_indices_ (fst s))) = true /\
  vkGetDeviceQueue_result env (present_family (q_indices_ (fst s))) = true.
Proof.
  unfold succeeds, createLogicalDevice, VKASSERT, ASSERT, bind, members, call.
  cbn [fst snd].
  destruct (vkCreateDevice_result env);
    destruct (vkGetDeviceQueue_result env (gfx_family (q_indices_ (fst s))));
    destruct (vkGetDeviceQueue_result env (present_family (q_indices_ (fst s))));
    split; try (intros [a [s' H]]; discriminate H);
    try (intros [H1 [H2 H3]]; congruence); eauto.
Qed.

Lemma createSwapChain_succeeds (env : Env) (s : State) :
  succeeds (createSwapChain env) s <->
  formats (swapchain_support_ (fst s)) <> [] /\
  vkCreateSwapchainKHR_result env = true.
Proof.
  split.
  - intros [a [s' H]]. apply createSwapChain_run in H.
    destruct H as [ci [Hci [Hr _]]]. split; [|exact Hr].
    intros Hempty. unfold swapchain_ci in Hci. rewrite Hempty in Hci.
    discriminate Hci.
  - intros [Hne Hr].
    destruct (swapchain_ci_defined (SDL_GL_GetDrawableSize_result env)
                (q_indices_ (fst s)) (swapchain_support_ (fst s)) Hne) as [f [_ E]].
    unfold succeeds, createSwapChain, VKASSERT, ASSERT, bind, members, lift, call, assign.
    cbn [fst snd]. rewrite E, Hr. eauto.
Qed.

Lemma createImageViews_succeeds (env : Env) (s : State) :
  succeeds (createImageViews env) s <->
  forall k, (k < List.length (swapchain_images_ (fst s)))%nat ->
            vkCreateImageView_result env k <> None.
Proof.
  unfold succeeds, createImageViews, bind, members, assign. cbn [fst snd].
  pose proof (createImageViews_loop_run env (swapchain_images_ (fst s)) 0
    (set_swapchain_views_
       (resize (List.length (swapchain_images_ (fst s))) 0 (swapchain_views_ (fst s)))
       (fst s), snd s)) as H.
  cbn [fst snd set_swapchain_views_ swapchain_views_ firstn List.app Nat.add] in H.
  rewrite length_resize in H. specialize (H eq_refl).
  destruct (createImageViews_loop env _ 0 _) as [[[] s1]|].
  - destruct H as [new_views [Hl [Hnth _]]].
    split; [|eauto]. intros _ k Hk. rewrite (Hnth k Hk).
    apply nth_error_Some. lia.
  - destruct H as [k [Hk Hnone]].
    split; [intros [a [s' E]]; discriminate E|].
    intros Hall. exfalso. now apply (Hall k Hk).
Qed.

Lemma existsb_close (events : list bool) :
  existsb (fun close => close) events = true <-> In true events.
Proof.
  rewrite existsb_exists. split.
  - intros [x [Hin Hx]]. now subst.
  - intros Hin. now exists true.
Qed.

(** X14. From a null [physical_device_], [run] returns exactly on the
    platforms of [supports_run]: SDL initialises and opens the window; the
    instance extensions can be queried and the instance is created; with
    diagnostics enabled the validation layers are all available and the
    create and destroy functions of the messenger can be loaded and the
    creation succeeds; the surface is created; some enumerated device is
    suitable, and for the first such device both queue handles are not null;
    the logical device, the swapchain and every image view are created; and a
    close event is polled.  Any other platform ends the process in an
    [ASSERT] (or, without a close event, never leaves the loop). *)
Theorem run_returns_iff (build : Build) (env : Env) (app0 : App) (log0 : list Call) :
  physical_device_ app0 = None ->
  (succeeds (run build env) (app0, log0) <-> supports_run build env).
Proof.
  intros Hnull. unfold supports_run. split.
  - intros [a [s' Hrun]]. apply run_inv in Hrun.
    destruct Hrun as [[app2 log2] [Hinit [Hclose Hclean]]].
    rewrite cleanup_spec in Hclean. apply existsb_close in Hclose.
    unfold bind in Hinit.
    destruct (initWindow env (app0, log0)) as [[[] s0]|] eqn:E0; [|discriminate].
    unfold initVulkan, bind in Hinit.
    destruct (createInstance build env s0) as [[[] s1]|] eqn:E1; [|discriminate].
    destruct ((if enable_validation_layers_ build then setupDebugMessenger env
               else ret tt) s1) as [[[] s2]|] eqn:E2; [|discriminate].
    destruct (createSurface env s2) as [[[] s3]|] eqn:E3; [|discriminate].
    destruct (pickPhysicalDevice env s3) as [[[] s4]|] eqn:E4; [|discriminate].
    destruct (createLogicalDevice build env s4) as [[[] s5]|] eqn:E5; [|discriminate].
    destruct (createSwapChain env s5) as [[[] s6]|] eqn:E6; [|discriminate].
    pose proof (initWindow_keeps env _ _ _ E0) as K0. cbn [fst] in K0.
    pose proof (createInstance_keeps build env _ _ _ E1) as K1.
    assert (K2 : fst s2 = fst s1).
    { unfold enable_validation_layers_ in E2. destruct (DEBUG build);
        [now apply setupDebugMessenger_keeps in E2 | now apply keeps_ret in E2]. }
    pose proof (createSurface_keeps env _ _ _ E3) as K3.
    pose proof (createLogicalDevice_keeps build env _ _ _ E5) as K5.
    apply succeeds_intro, initWindow_succeeds in E0. destruct E0 as [C1 C2].
    apply succeeds_intro, createInstance_succeeds in E1.
    destruct E1 as [C3 [C4 [C5 C6]]].
    apply succeeds_intro, createSurface_succeeds in E3.
    destruct (proj1 (pickPhysicalDevice_first env s3 ltac:(congruence)) tt s4 E4)
      as [device [Hfirst Hs4]].
    apply succeeds_intro, createLogicalDevice_succeeds in E5.
    destruct E5 as [C9 [Cg Cp]]. rewrite Hs4 in Cg, Cp.
    cbn [fst set_physical_device_ cache set_swapchain_support_ set_q_indices_
         q_indices_] in Cg, Cp.
    pose proof (createSwapChain_run env _ _ _ E6) as [ci [_ [C10 [_ F6]]]].
    apply succeeds_intro in Hinit.
    pose proof (proj1 (createImageViews_succeeds env s6) Hinit) as Cv.
    rewrite F6 in Cv. clear Hinit. rename Cv into Hinit.
    cbn [set_swapchain_extent_ set_swapchain_format_ set_swapchain_images_
         swapchain_images_] in Hinit.
    split; [exact C1|]. split; [exact C2|]. split; [exact C3|]. split; [exact C4|].
    split.
    { intros Hd. split; [now apply (proj1 (getValidationLayers_succeeds build env))|].
      unfold enable_validation_layers_ in E2. rewrite Hd in E2, Hclean.
      apply succeeds_intro, setupDebugMessenger_succeeds in E2.
      destruct E2 as [Cl Cr]. split; [exact Cl|]. split; [exact Cr|].
      destruct (vkDestroyDebugUtilsMessengerEXT_loaded env);
        [reflexivity | discriminate Hclean]. }
    split; [exact C6|]. split; [exact E3|].
    split; [exists device; auto|].
    split; [exact C9|]. split; [exact C10|]. split; [exact Hinit | exact Hclose].
  - intros [C1 [C2 [C3 [C4 [Cd [C6 [C7 [[device [Hfirst [Cg Cp]]] [C9 [C10 [Cv Cc]]]]]]]]]]].
    destruct (proj2 (initWindow_succeeds env (app0, log0)) (conj C1 C2))
      as [[] [s0 E0]].
    pose proof (initWindow_keeps env _ _ _ E0) as K0. cbn [fst] in K0.
    destruct (proj2 (createInstance_succeeds build env s0)) as [[] [s1 E1]].
    { split; [exact C3|]. split; [exact C4|]. split; [|exact C6].
      apply getValidationLayers_succeeds. intros Hd. now apply Cd. }
    pose proof (createInstance_keeps build env _ _ _ E1) as K1.
    assert (E2 : exists s2,
              (if enable_validation_layers_ build then setupDebugMessenger env
               else ret tt) s1 = Some (tt, s2) /\ fst s2 = fst s1).
    { unfold enable_validation_layers_. destruct (DEBUG build) eqn:Hd.
      - destruct (Cd eq_refl) as [_ [Cl [Cr _]]].
        destruct (proj2 (setupDebugMessenger_succeeds env s1) (conj Cl Cr))
          as [[] [s2 E2]].
        exists s2. split; [exact E2 | now apply setupDebugMessenger_keeps in E2].
      - exists s1. split; reflexivity. }
    destruct E2 as [s2 [E2 K2]].
    destruct (proj2 (createSurface_succeeds env s2) C7) as [[] [s3 E3]].
    pose proof (createSurface_keeps env _ _ _ E3) as K3.
    pose proof (proj2 (pickPhysicalDevice_first env s3 ltac:(congruence))
                  device Hfirst) as E4.
    set (s4 := (set_physical_device_ (Some device) (cache device (fst s3)), snd s3))
      in E4.
    destruct (proj2 (createLogicalDevice_succeeds build env s4)) as [[] [s5 E5]].
    { subst s4. cbn [fst set_physical_device_ cache set_swapchain_support_
                     set_q_indices_ q_indices_]. auto. }
    pose proof (createLogicalDevice_keeps build env _ _ _ E5) as K5.
    destruct (proj2 (createSwapChain_succeeds env s5)) as [[] [s6 E6]].
    { split; [|exact C10]. rewrite K5. subst s4.
      cbn [fst set_physical_device_ cache set_swapchain_support_ set_q_indices_
           swapchain_support_ querySwapChainSupport formats].
      destruct Hfirst as [_ [_ [_ [_ [_ [_ [Hne _]]]]]]]. exact Hne. }
    pose proof (createSwapChain_run env _ _ _ E6) as [ci [_ [_ [_ F6]]]].
    destruct (proj2 (createImageViews_succeeds env s6)) as [[] [[app7 log7] E7]].
    { rewrite F6.
      cbn [set_swapchain_extent_ set_swapchain_format_ set_swapchain_images_
           swapchain_images_]. exact Cv. }
    unfold succeeds, run, initVulkan, bind.
    rewrite E0, E1, E2, E3, E4, E5, E6, E7.
    unfold mainLoop. rewrite mainLoop_poll_run.
    rewrite (proj2 (existsb_close _) Cc).
    rewrite cleanup_spec.
    destruct (DEBUG build) eqn:Hd; cbn [andb].
    + destruct (Cd eq_refl) as [_ [_ [_ Cl]]]. rewrite Cl. cbn [negb]. eauto.
    + eauto.
Qed.

Lemma run_returns_iff_witness : succeeds (run debug_build env_ok) (fresh_app, []).
Proof.
  apply (proj2 (run_returns_iff debug_build env_ok fresh_app [] eq_refl)).
  unfold supports_run.
  split; [reflexivity|]. split; [reflexivity|]. split; [reflexivity|].
  split; [discriminate|]. split.
  { intros _. split; [|auto].
    exists ["VK_LAYER_KHRONOS_validation"%string]. split; [reflexivity|].
    intros layer Hin. exact Hin. }
  split; [reflexivity|]. split; [reflexivity|]. split.
  { exists device_late_present. split; [|split; reflexivity].
    exists [device_wrong_case; device_no_present_mode; device_compute_only],
           [device_three_families].
    split; [reflexivity|]. split.
    - repeat constructor.
      + intros [_ [H _]]. apply checkDeviceExtensionSupport_multiset in H.
        discriminate H.
      + intros [_ [_ [_ H]]]. now apply H.
      + intros [H _]. discriminate H.
    - split; [reflexivity|]. split.
      + apply checkDeviceExtensionSupport_multiset. reflexivity.
      + split; discriminate. }
  split; [reflexivity|]. split; [reflexivity|]. split.
  { intros k _. simpl. discriminate. }
  simpl. auto.
Defined.
